(** * weather_analyse: the acquisition and aggregation pipeline

    A shallow embedding of [fetch.py] (the month fetcher, its row loop and
    the year orchestrator), of the data part of [analyse.py] (the wind
    and weather-condition aggregates, the force-level sort key and the
    order of the legend), of the acquisition part of [test.py] and of the
    month check of [train.py], with the properties the specification
    states about them and further properties of the code.

    Python values are modelled as the code has them: a [str] is a list of
    Unicode code points, an [openpyxl] sheet is a list of rows of cell
    values, the files under [data/] are a finite map from path to workbook,
    and the calls that can raise ([int], indexing a list, [requests.get])
    run in a state-and-exception monad over the world. *)

From Stdlib Require Import ZArith NArith QArith String Ascii List Lia.
From stdpp Require Import base option list gmap sorting.

Local Open Scope N_scope.

(** ** Python strings *)

Module PyStr.

(** A character is its Unicode code point; a [str] is the list of them. *)
Definition char := N.
Definition str := list char.

(** UTF-8 decoding, so that a text can be written as a literal. A byte
    that starts no well-formed sequence is kept as it is. *)
Fixpoint utf8_decode (bs : list N) : str :=
  match bs with
  | [] => []
  | b0 :: r0 =>
    if b0 <? 128 then b0 :: utf8_decode r0
    else if b0 <? 224 then
      match r0 with
      | b1 :: r1 => ((b0 - 192) * 64 + (b1 - 128)) :: utf8_decode r1
      | [] => [b0]
      end
    else if b0 <? 240 then
      match r0 with
      | b1 :: b2 :: r2 =>
        ((b0 - 224) * 4096 + (b1 - 128) * 64 + (b2 - 128)) :: utf8_decode r2
      | _ => b0 :: utf8_decode r0
      end
    else
      match r0 with
      | b1 :: b2 :: b3 :: r3 =>
        ((b0 - 240) * 262144 + (b1 - 128) * 4096 + (b2 - 128) * 64 + (b3 - 128))
          :: utf8_decode r3
      | _ => b0 :: utf8_decode r0
      end
  end.

Definition lit (s : string) : str :=
  utf8_decode (List.map N_of_ascii (list_ascii_of_string s)).

(** The one-character constants the sources use. *)
Definition c_newline : char := 10.
Definition c_space : char := 32.
Definition c_plus : char := 43.
Definition c_minus : char := 45.
Definition c_slash : char := 47.
Definition c_zero : char := 48.
Definition c_underscore : char := 95.
Definition c_celsius : char := 8451.   (* ℃, U+2103 *)
Definition c_day : char := 26085.      (* 日, U+65E5 *)
Definition c_month : char := 26376.    (* 月, U+6708 *)
Definition c_year : char := 24180.     (* 年, U+5E74 *)

(** [str.isspace] on one character: the code points CPython's
    [_PyUnicode_IsWhitespace] accepts. *)
Definition isspace (c : char) : bool :=
  ((9 <=? c) && (c <=? 13)) || ((28 <=? c) && (c <=? 32))
  || (c =? 133) || (c =? 160) || (c =? 5760)
  || ((8192 <=? c) && (c <=? 8202))
  || (c =? 8232) || (c =? 8233) || (c =? 8239) || (c =? 8287) || (c =? 12288).

(** Decimal digits. [str.isdigit] and [int] are modelled on the digits
    0-9; the digit characters of other scripts are not represented. *)
Definition char_isdigit (c : char) : bool := (48 <=? c) && (c <=? 57).

Definition digit_value (c : char) : Z := Z.of_N (c - 48).


(** [s.lstrip(chars)] and [s.rstrip(chars)], by the test a stripped
    character passes. *)
Fixpoint lstrip_by (p : char -> bool) (s : str) : str :=
  match s with
  | [] => []
  | c :: s' => if p c then lstrip_by p s' else s
  end.

Fixpoint rstrip_by (p : char -> bool) (s : str) : str :=
  match s with
  | [] => []
  | c :: s' =>
    match rstrip_by p s' with
    | [] => if p c then [] else [c]
    | r => c :: r
    end
  end.

Definition lstrip (c : char) (s : str) : str := lstrip_by (N.eqb c) s.
Definition rstrip (c : char) (s : str) : str := rstrip_by (N.eqb c) s.

(** [s.strip()] *)
Definition strip (s : str) : str := rstrip_by isspace (lstrip_by isspace s).

(** [s.split(sep)] for a one-character separator: the pieces between the
    separators, one more than there are separators. *)
Fixpoint split (sep : char) (s : str) : list str :=
  match s with
  | [] => [[]]
  | c :: s' =>
    if c =? sep then [] :: split sep s'
    else
      match split sep s' with
      | p :: ps => (c :: p) :: ps
      | [] => [[c]]
      end
  end.

(** [sep in s] *)
Definition contains (sep : char) (s : str) : bool := existsb (N.eqb sep) s.

(** [str(n)] for a natural number. *)
Fixpoint uint_chars (d : Decimal.uint) : str :=
  match d with
  | Decimal.Nil => []
  | Decimal.D0 d' => 48 :: uint_chars d'
  | Decimal.D1 d' => 49 :: uint_chars d'
  | Decimal.D2 d' => 50 :: uint_chars d'
  | Decimal.D3 d' => 51 :: uint_chars d'
  | Decimal.D4 d' => 52 :: uint_chars d'
  | Decimal.D5 d' => 53 :: uint_chars d'
  | Decimal.D6 d' => 54 :: uint_chars d'
  | Decimal.D7 d' => 55 :: uint_chars d'
  | Decimal.D8 d' => 56 :: uint_chars d'
  | Decimal.D9 d' => 57 :: uint_chars d'
  end.

Definition str_of_nat (n : nat) : str := uint_chars (Nat.to_uint n).

(** [int(s)] on a [str]: surrounding whitespace is dropped, one sign is
    allowed, then decimal digits, where single underscores may stand
    between two digits. [None] is Python's [ValueError]. *)
Fixpoint int_digits (acc : Z) (prev_digit : bool) (s : str) : option Z :=
  match s with
  | [] => if prev_digit then Some acc else None
  | c :: s' =>
    if char_isdigit c then int_digits (acc * 10 + digit_value c) true s'
    else if (c =? c_underscore) && prev_digit then
      match s' with
      | d :: _ => if char_isdigit d then int_digits acc false s' else None
      | [] => None
      end
    else None
  end.

Definition int (s : str) : option Z :=
  match strip s with
  | [] => None
  | c :: s' =>
    if c =? c_minus then Z.opp <$> int_digits 0 false s'
    else if c =? c_plus then int_digits 0 false s'
    else int_digits 0 false (c :: s')
  end.

End PyStr.

Import PyStr.

(** ** Values, exceptions and results *)

Module PyVal.

(** The value of a cell, in an [openpyxl] sheet and in a [pandas] column:
    empty ([None], [NaN]), a text, or a number. *)
Inductive cell :=
  | CNone
  | CStr (s : str)
  | CNum (z : Z).

Inductive exn :=
  | ValueError          (* int() of a text that is no numeral *)
  | IndexError          (* a list or a str indexed past its end *)
  | TypeError           (* [' ' in text] for a text that is no str *)
  | FileNotFoundError   (* load_workbook of a path with no file *)
  | RequestException    (* requests.get raised *)
  | NoObject.           (* a reference to no workbook: not reachable from Python *)

(** What an expression that can raise evaluates to. *)
Inductive result (A : Type) :=
  | Ret (a : A)
  | Raise (e : exn).
Arguments Ret {A} a.
Arguments Raise {A} e.

Definition rbind {A B} (r : result A) (k : A -> result B) : result B :=
  match r with
  | Ret a => k a
  | Raise e => Raise e
  end.

Definition of_option {A} (e : exn) (o : option A) : result A :=
  match o with
  | Some a => Ret a
  | None => Raise e
  end.

(** [[f(x) for x in l]], stopping at the first element that raises. *)
Fixpoint map_result {A B} (f : A -> result B) (l : list A) : result (list B) :=
  match l with
  | [] => Ret []
  | x :: l' => rbind (f x) (fun y => rbind (map_result f l') (fun ys => Ret (y :: ys)))
  end.

#[global] Instance cell_eq_dec : EqDecision cell.
Proof. solve_decision. Defined.

#[global] Instance cell_countable : Countable cell.
Proof.
  refine (inj_countable'
    (fun c => match c with
              | CNone => inl tt
              | CStr s => inr (inl s)
              | CNum z => inr (inr z)
              end)
    (fun x => match x with
              | inl _ => CNone
              | inr (inl s) => CStr s
              | inr (inr z) => CNum z
              end) _).
  intros []; reflexivity.
Defined.

End PyVal.

Import PyVal.

Notation "'let?' x ':=' r 'in' k" := (rbind r (fun x => k))
  (at level 10, x pattern, r at level 100, k at level 200).

(** ** The regular expression of the date cell *)

Module Re.

(** The fragment of [re] the source uses: a literal character, and the
    capturing group [( .* )], greedy, whose dot takes every character but
    the newline. *)
Inductive item :=
  | Lit (c : char)
  | AnyStarGroup.

(** [re.match(p, s)]: the pattern is tried at the start of [s] and may
    stop before its end; the result lists the groups' contents. A group
    first takes as many characters as it can and gives them back one at a
    time while the rest of the pattern fails, as the backtracking matcher
    does. *)
Fixpoint re_match (p : list item) (s : str) : option (list str) :=
  match p with
  | [] => Some []
  | Lit c :: p' =>
    match s with
    | x :: s' => if x =? c then re_match p' s' else None
    | [] => None
    end
  | AnyStarGroup :: p' =>
    (fix star (s : str) : option (list str) :=
       let stop := cons [] <$> re_match p' s in
       match s with
       | x :: s' =>
         if x =? c_newline then stop
         else
           match star s' with
           | Some (g :: gs) => Some ((x :: g) :: gs)
           | _ => stop
           end
       | [] => stop
       end) s
  end.

(** The pattern of line 88: a group, 年, a group, 月, a group, 日. *)
Definition date_pattern : list item :=
  [AnyStarGroup; Lit c_year; AnyStarGroup; Lit c_month; AnyStarGroup; Lit c_day].

End Re.

(** ** fetch.py *)

Module Fetch.

(** *** Workbooks, pages and the world *)

Definition sheet := list (list cell).

(** An [openpyxl.Workbook], as far as the code looks at it: [wb.active] is
    its active sheet, or [None] when it has none. *)
Record Workbook := { active : option sheet }.

(** One element of [table.find_all('tr')]: a [Tag], with the texts of its
    [td] cells in order, or something that is no [Tag]. *)
Inductive row :=
  | RowTag (columns : list str)
  | RowOther.

(** A response of [requests.get] after [BeautifulSoup]: its status code
    and, when [soup.find(class_='weather-table')] is a [Tag], the rows of
    that table. *)
Record Response := { status_code : Z; table : option (list row) }.

(** What the run does to the outside, in order. *)
Inductive event :=
  | EvMakedirs (path : str)
  | EvLoad (path : str)
  | EvSave (path : str) (wb : Workbook)
  | EvGet (url : str).

(** The world: the files on disk by path, the workbook objects in memory
    by reference (their index), and the trace of events so far. *)
Record world := {
  disk : gmap str Workbook;
  heap : list Workbook;
  trace : list event
}.

(** The argument [file]: a file name or a workbook object. *)
Inductive file_arg :=
  | FileName (name : str)
  | FileWb (wb : nat).

(** The [logger.error] line a call of [fetch_weather_data] ends on, or
    [Fetched] when it ran to its end (Python returns [None] on each). *)
Inductive outcome :=
  | YearOutOfRange
  | MonthOutOfRange
  | FailedToCreateSheet
  | FailedToLoadSheet
  | PageInaccessible
  | TableNotFound
  | Fetched.

(** *** The monad of the effectful code *)

Definition M (A : Type) : Type := world -> result A * world.

Definition ret {A} (a : A) : M A := fun w => (Ret a, w).
Definition raise {A} (e : exn) : M A := fun w => (Raise e, w).
Definition bind {A B} (m : M A) (k : A -> M B) : M B :=
  fun w =>
    match m w with
    | (Ret a, w') => k a w'
    | (Raise e, w') => (Raise e, w')
    end.

Notation "'let*' x ':=' m 'in' k" := (bind m (fun x => k))
  (at level 10, x pattern, m at level 100, k at level 200).

(** A pure step that can raise. *)
Definition lift {A} (e : exn) (o : option A) : M A :=
  match o with
  | Some a => ret a
  | None => raise e
  end.

Fixpoint for_each {A} (l : list A) (body : A -> M unit) : M unit :=
  match l with
  | [] => ret tt
  | x :: l' => let* _ := body x in for_each l' body
  end.

(** One more event at the end of the trace. *)
Definition emit (ev : event) : M unit :=
  fun w => (Ret tt, {| disk := disk w; heap := heap w; trace := trace w ++ [ev] |}).

(** [os.path.exists(path)] *)
Definition path_exists (path : str) : M bool :=
  fun w => (Ret (bool_decide (is_Some (disk w !! path))), w).

(** [os.makedirs(path, exist_ok=True)] *)
Definition makedirs (path : str) : M unit := emit (EvMakedirs path).

(** [openpyxl.Workbook()]: a new object, with one empty sheet. *)
Definition new_workbook : M nat :=
  fun w =>
    (Ret (length (heap w)),
     {| disk := disk w; heap := heap w ++ [{| active := Some [] |}]; trace := trace w |}).

(** [openpyxl.load_workbook(path)]: a new object holding the file's content. *)
Definition load_workbook (path : str) : M nat :=
  fun w =>
    match disk w !! path with
    | Some wb =>
      (Ret (length (heap w)),
       {| disk := disk w; heap := heap w ++ [wb]; trace := trace w ++ [EvLoad path] |})
    | None => (Raise FileNotFoundError, w)
    end.

(** [wb.active] *)
Definition get_active (wb : nat) : M (option sheet) :=
  fun w =>
    match heap w !! wb with
    | Some o => (Ret (active o), w)
    | None => (Raise NoObject, w)
    end.

(** [sheet.append(r)] on the active sheet of [wb]: one more row at the end.
    The checks [openpyxl] makes on a value of its own (it refuses a text
    with a control character) are not modelled. *)
Definition sheet_append (wb : nat) (r : list cell) : M unit :=
  fun w =>
    match heap w !! wb with
    | Some {| active := Some sh |} =>
      (Ret tt,
       {| disk := disk w;
          heap := <[wb := {| active := Some (sh ++ [r]) |}]> (heap w);
          trace := trace w |})
    | _ => (Raise NoObject, w)
    end.

(** [wb.save(path)]: the file at [path] becomes the workbook's content.
    Writing is taken to succeed. *)
Definition save (wb : nat) (path : str) : M unit :=
  fun w =>
    match heap w !! wb with
    | Some o =>
      (Ret tt,
       {| disk := <[path := o]> (disk w);
          heap := heap w;
          trace := trace w ++ [EvSave path o] |})
    | None => (Raise NoObject, w)
    end.

(** [os.path.join(a, b)] on POSIX, for a directory name [a] that is not
    empty and ends in no slash: an absolute [b] replaces [a]. *)
Definition path_join (a b : str) : str :=
  match b with
  | c :: _ => if c =? c_slash then b else a ++ c_slash :: b
  | [] => a ++ [c_slash]
  end.

Definition url_base : str := lit "https://www.tianqihoubao.com/lishi/".

Definition header : list cell :=
  List.map (fun s => CStr (lit s))
    ["年"; "月"; "日"; "白天天气"; "夜间天气"; "最高温度/℃"; "最低温度/℃";
     "白天风力风向"; "夜间风力风向"]%string.

Definition data_path (file : str) : str :=
  path_join (lit "data") (file ++ lit ".xlsx").

(** *** The row loop (lines 82-126) *)

(** [columns[i].text] *)
Definition column (columns : list str) (i : nat) : result str :=
  of_option IndexError (columns !! i).

(** [a, b = text.split('/')] when the split has two parts: lines 96-97,
    105-106 and 114-115. *)
Definition two_parts (text : str) : option (str * str) :=
  match split c_slash text with
  | [a; b] => Some (a, b)
  | _ => None
  end.

(** The body of the loop for a row that is a [Tag], up to the list that
    line 123 appends: [Ret None] is the [continue] of line 91. [month] is
    the month after line 35. *)
Definition extract_row (year month : str) (columns : list str)
  : result (option (list cell)) :=
  let? date_text := column columns 0 in
  match Re.re_match Re.date_pattern date_text with
  | Some [_; _; group3] =>
    let day := lstrip c_zero group3 in
    let? weather_text := column columns 1 in
    let '(weather_day, weather_night) :=
      match two_parts weather_text with
      | Some (a, b) => (strip a, strip b)
      | None => ([], [])
      end in
    let? temperature_text := column columns 2 in
    let '(temperature_high, temperature_low) :=
      match two_parts temperature_text with
      | Some (a, b) => (rstrip c_celsius (strip a), rstrip c_celsius (strip b))
      | None => ([], [])
      end in
    let? wind_text := column columns 3 in
    let '(wind_day, wind_night) :=
      match two_parts wind_text with
      | Some (a, b) => (strip a, strip b)
      | None => ([], [])
      end in
    Ret (Some [CStr year; CStr (lstrip c_zero month); CStr day;
               CStr weather_day; CStr weather_night;
               CStr temperature_high; CStr temperature_low;
               CStr wind_day; CStr wind_night])
  | _ => Ret None
  end.

Definition lift_result {A} (r : result A) : M A :=
  match r with
  | Ret a => ret a
  | Raise e => raise e
  end.

Definition process_row (wb : nat) (year month : str) (r : row) : M unit :=
  match r with
  | RowTag columns =>
    let* record := lift_result (extract_row year month columns) in
    match record with
    | Some cells => sheet_append wb cells
    | None => ret tt
    end
  | RowOther => ret tt
  end.

(** *** fetch_weather_data and fetch_weather_data_year *)

(** Lines 34-35: a month of one character gets a zero in front. *)
Definition padded (month : str) : str :=
  if (length month =? 1)%nat then c_zero :: month else month.

(** Line 71. *)
Definition page_url (city year month : str) : str :=
  url_base ++ city ++ lit "/month/" ++ year ++ month ++ lit ".html".

Section Environment.

(** [datetime.datetime.now()], taken as one instant for a run, and the
    site: what [requests.get] answers for a URL, [None] when it raises. *)
Variables now_year now_month : Z.
Variable net : str -> option Response.

Definition requests_get (url : str) : M Response :=
  let* _ := emit (EvGet url) in lift RequestException (net url).

(** Lines 69-134, once the workbook [wb] is open; [file] still tells
    whether line 129 saves. *)
Definition fetch_page (file : file_arg) (wb : nat) (city year month : str)
  : M outcome :=
  let* response := requests_get (page_url city year month) in
  if (status_code response =? 200)%Z then
    match table response with
    | Some rows =>
      let* _ := for_each (drop 1 rows) (process_row wb year month) in
      let* _ :=
        match file with
        | FileName name => save wb (data_path name)
        | FileWb _ => ret tt
        end in
      ret Fetched
    | None => ret TableNotFound
    end
  else ret PageInaccessible.

Definition fetch_weather_data (file : file_arg) (city year month : str)
  : M outcome :=
  let* y := lift ValueError (int year) in
  if ((y <? 2011) || (y >? now_year))%Z then ret YearOutOfRange
  else
    let* m := lift ValueError (int month) in
    if ((m <? 1) || (m >? 12) || ((y =? now_year) && (m >? now_month)))%Z
    then ret MonthOutOfRange
    else
      let month := padded month in
      match file with
      | FileName name =>
        let file_path := data_path name in
        let* found := path_exists file_path in
        if negb found then
          let* _ := makedirs (lit "data") in
          let* wb := new_workbook in
          let* sheet := get_active wb in
          match sheet with
          | None => ret FailedToCreateSheet
          | Some _ =>
            let* _ := sheet_append wb header in
            let* _ := save wb file_path in
            fetch_page file wb city year month
          end
        else
          let* wb := load_workbook file_path in
          let* sheet := get_active wb in
          match sheet with
          | None => ret FailedToLoadSheet
          | Some _ => fetch_page file wb city year month
          end
      | FileWb wb =>
        let* sheet := get_active wb in
        match sheet with
        | None => ret FailedToLoadSheet
        | Some _ => fetch_page file wb city year month
        end
      end.

(** The months of [range(1, 13)], as [str(month)]. *)
Definition months : list str := List.map str_of_nat (seq 1 12).

(** [false] is the early return of line 155. *)
Definition fetch_weather_data_year (file city year : str) : M bool :=
  let file_path := data_path file in
  let* found := path_exists file_path in
  let* opened :=
    if negb found then
      let* _ := makedirs (lit "data") in
      let* wb := new_workbook in
      let* sheet := get_active wb in
      match sheet with
      | None => ret None
      | Some _ =>
        let* _ := sheet_append wb header in
        let* _ := save wb file_path in
        ret (Some wb)
      end
    else
      let* wb := load_workbook file_path in ret (Some wb) in
  match opened with
  | None => ret false
  | Some wb =>
    let* _ :=
      for_each months
        (fun month => let* _ := fetch_weather_data (FileWb wb) city year month in ret tt) in
    let* _ := save wb file_path in
    ret true
  end.

End Environment.

End Fetch.

(** ** analyse.py: the wind and weather-condition aggregates *)

Module Analyse.

(** One row of the frame [pd.read_excel] returns, by the columns the two
    aggregates read: 年, 月, 白天天气, 夜间天气, 白天风力风向, 夜间风力风向. *)
Record df_row := {
  col_year : cell;
  col_month : cell;
  col_weather_day : cell;
  col_weather_night : cell;
  col_wind_day : cell;
  col_wind_night : cell
}.

Definition DataFrame := list df_row.

(** [series.nunique()]: the number of distinct values, missing ones apart. *)
Definition nunique (col : list cell) : nat :=
  length (remove_dups (filter (fun c => c ≠ CNone) col)).

(** [df['年'].nunique()] *)
Definition years_count (df : DataFrame) : nat := nunique (col_year <$> df).

(** The quotient [count / years_count] of two integers in [pandas]: the
    exact ratio stands for the float nearest to it; a division by zero
    gives [inf], or [NaN] for 0/0. *)
Inductive quotient :=
  | Finite (q : Q)
  | Infinity
  | NotANumber.

Definition true_divide (n d : nat) : quotient :=
  match d, n with
  | O, O => NotANumber
  | O, _ => Infinity
  | _, _ => Finite (Z.of_nat n # Pos.of_nat d)
  end.

(** [frame.groupby(keys).size()], as the finite map from each key that
    occurs to the number of its occurrences (the order of the groups is
    not modelled). *)
Definition groupby_size {K} `{Countable K} (keys : list K) : gmap K nat :=
  foldr (fun k m => <[k := S (default O (m !! k))]> m) ∅ keys.

(** Lines 81-84. *)
Definition extract_wind_force (text : cell) : result (option str) :=
  match text with
  | CStr s => Ret (if contains c_space s then last (split c_space s) else None)
  | _ => Raise TypeError
  end.

(** Lines 86-95: the (月, 风力等级) rows of the day column, then those of the
    night column, without the rows that have no level. *)
Definition all_wind_occurrences (df : DataFrame) : result (list (cell * str)) :=
  let? day := map_result extract_wind_force (col_wind_day <$> df) in
  let? night := map_result extract_wind_force (col_wind_night <$> df) in
  Ret (omap (fun '(m, l) => pair m <$> l)
         (zip (col_month <$> df) day ++ zip (col_month <$> df) night)).

(** [groupby] leaves out the rows whose key is missing. *)
Definition keyed {L} (occurrences : list (cell * L)) : list (cell * L) :=
  filter (fun o => o.1 ≠ CNone) occurrences.

(** Lines 96-97: for each (月, 风力等级), 出现次数 and 年均出现次数. *)
Definition wind_counts (df : DataFrame)
  : result (gmap (cell * str) (nat * quotient)) :=
  let? occurrences := all_wind_occurrences df in
  Ret ((fun n => (n, true_divide n (years_count df)))
         <$> groupby_size (keyed occurrences)).

(** Lines 157-162: the (月, 天气) rows of the day column, then those of the
    night column, without the rows that have no condition. *)
Definition weather (df : DataFrame) : list (cell * cell) :=
  filter (fun o => o.2 ≠ CNone)
    (((fun r => (col_month r, col_weather_day r)) <$> df)
     ++ ((fun r => (col_month r, col_weather_night r)) <$> df)).

(** Lines 163-165. *)
Definition weather_counts (df : DataFrame) : gmap (cell * cell) (nat * quotient) :=
  (fun n => (n, true_divide n (years_count df))) <$> groupby_size (keyed (weather df)).





End Analyse.

Import Re Fetch Analyse.

(** ** test.py: the acquisition part of the script *)

Module Script.

Definition history : str := lit "dalian_weather_history".
Definition now : str := lit "dalian_weather_now".

Section Environment.

Variables now_year now_month : Z.
Variable net : str -> option Response.

(** Lines 9-12. *)
Definition acquire_history : M unit :=
  let* found := path_exists (data_path history) in
  if negb found then
    let* _ := fetch_weather_data_year now_year now_month net history (lit "dalian") (lit "2022") in
    let* _ := fetch_weather_data_year now_year now_month net history (lit "dalian") (lit "2023") in
    let* _ := fetch_weather_data_year now_year now_month net history (lit "dalian") (lit "2024") in
    ret tt
  else ret tt.

(** Lines 13-15. *)
Definition acquire_now : M unit :=
  let* found := path_exists (data_path now) in
  if negb found then
    for_each (str_of_nat <$> seq 1 6)
      (fun i =>
         let* _ := fetch_weather_data now_year now_month net (FileName now)
                     (lit "dalian") (lit "2025") i in
         ret tt)
  else ret tt.

(** Lines 9-15: what the script does before it draws and trains. *)
Definition acquire : M unit :=
  let* _ := acquire_history in acquire_now.

End Environment.

End Script.

(** ** analyse.py: the order of the weather conditions in the legend *)

Module WeatherOrder.

(** [a < b] on two [str]: by the first code point that differs, a proper
    prefix before the longer text. *)
Fixpoint str_lt (a b : str) : bool :=
  match a, b with
  | _, [] => false
  | [], _ :: _ => true
  | x :: a', y :: b' => (x <? y) || ((x =? y) && str_lt a' b')
  end.

(** [sorted(l)] on a list of [str]: stable, by [<]. *)
Fixpoint insert_text (x : str) (l : list str) : list str :=
  match l with
  | [] => [x]
  | y :: l' => if str_lt y x then y :: insert_text x l' else x :: l
  end.

Definition sorted_texts (l : list str) : list str := foldr insert_text [] l.

(** Lines 167-172. *)
Definition weather_order : list str :=
  [ lit "晴"; lit "多云"; lit "阴";
    lit "小雨"; lit "小到中雨"; lit "中雨"; lit "中到大雨"; lit "大雨";
    lit "大到暴雨"; lit "大暴雨";
    lit "阵雨"; lit "雷阵雨";
    lit "雨夹雪"; lit "阵雪"; lit "小雪"; lit "小到中雪"; lit "中雪";
    lit "中到大雪"; lit "大雪"; lit "大到暴雪"; lit "暴雪" ].

(** Lines 175-177, on the conditions the counts hold, which are texts. *)
Definition sorted_weather (existing_weathers : list str) : list str :=
  let sorted_weather := filter (fun w => w ∈ existing_weathers) weather_order in
  let remaining_weather := filter (fun w => w ∉ weather_order) existing_weathers in
  sorted_weather ++ sorted_texts remaining_weather.

End WeatherOrder.

(** ** train.py: the months [predict] accepts *)

Module Train.

(** [sorted(month)] on a list of [int]: stable, by [<]. *)
Fixpoint insert_int (x : Z) (l : list Z) : list Z :=
  match l with
  | [] => [x]
  | y :: l' => if (y <? x)%Z then y :: insert_int x l' else x :: l
  end.

Definition sorted_ints (l : list Z) : list Z := foldr insert_int [] l.

(** Line 54: the test that makes [predict] log an error and return. The
    operands of [or] are evaluated from the left, up to the first that
    holds. *)
Definition invalid_month (month : list Z) : result bool :=
  if bool_decide (month = []) then Ret true
  else if bool_decide (sorted_ints month ≠ month) then Ret true
  else
    let? first := of_option IndexError (month !! 0%nat) in
    if (first <? 1)%Z then Ret true
    else
      let? final := of_option IndexError (last month) in
      Ret (12 <? final)%Z.

End Train.

(** * Notions of the statements *)

(** ** The date pattern, read declaratively *)

(** The declarative reading of a pattern: a literal is itself, a group is
    any run of characters without a newline. *)
Inductive matches : list item -> str -> list str -> Prop :=
  | matches_nil s : matches [] s []
  | matches_lit c p s gs :
      matches p s gs -> matches (Lit c :: p) (c :: s) gs
  | matches_group p g s gs :
      c_newline ∉ g -> matches p s gs -> matches (AnyStarGroup :: p) (g ++ s) (g :: gs).

(** A text the date pattern matches: three runs without a newline, each
    followed by its literal, then anything. *)
Definition date_shape (s : str) : Prop :=
  exists g1 g2 g3 rest : str,
    s = g1 ++ c_year :: g2 ++ c_month :: g3 ++ c_day :: rest
    /\ (c_newline ∉ g1) /\ (c_newline ∉ g2) /\ (c_newline ∉ g3).

(** The date pattern as the specification words it: three numeric groups,
    each followed by its literal character. [digits_then c] reads one or
    more digits and then [c], and returns what follows. *)
Fixpoint digits_then (c : char) (seen : bool) (s : str) : option str :=
  match s with
  | [] => None
  | x :: s' =>
    if char_isdigit x then digits_then c true s'
    else if (x =? c) && seen then Some s'
    else None
  end.

Definition numeric_date (s : str) : bool :=
  match digits_then c_year false s with
  | Some r1 =>
    match digits_then c_month false r1 with
    | Some r2 => bool_decide (is_Some (digits_then c_day false r2))
    | None => false
    end
  | None => false
  end.

(** ** The rows of a page *)

(** The two fields a cell of the form [day/night] gives (lines 96-121):
    the stripped halves when the split has two parts, two empty texts
    otherwise. *)
Definition halves (text : str) : str * str :=
  match two_parts text with
  | Some (a, b) => (strip a, strip b)
  | None => ([], [])
  end.

(** What the loop over [rows] appends, in order, and the exception that
    ends it early, if one does. *)
Fixpoint extract_rows (year month : str) (rows : list row)
  : list (list cell) * option exn :=
  match rows with
  | [] => ([], None)
  | RowOther :: rows' => extract_rows year month rows'
  | RowTag columns :: rows' =>
    match extract_row year month columns with
    | Raise e => ([], Some e)
    | Ret None => extract_rows year month rows'
    | Ret (Some r) =>
      let '(rs, e) := extract_rows year month rows' in (r :: rs, e)
    end
  end.

(** The test of line 89 on a row: it is a [Tag] and its date cell matches. *)
Definition row_matches (r : row) : bool :=
  match r with
  | RowTag (date :: _) => bool_decide (is_Some (re_match date_pattern date))
  | _ => false
  end.


(** ** Worlds *)

(** The world with [sh] as the active sheet of the workbook [wb]. *)
Definition with_sheet (w : world) (wb : nat) (sh : sheet) : world :=
  {| disk := disk w;
     heap := <[wb := {| active := Some sh |}]> (heap w);
     trace := trace w |}.

Definition with_events (w : world) (evs : list event) : world :=
  {| disk := disk w; heap := heap w; trace := trace w ++ evs |}.

(** The world after [wb.save(path)] for the workbook [wb] holding [sh]. *)
Definition saved (w : world) (path : str) (sh : sheet) : world :=
  {| disk := <[path := {| active := Some sh |}]> (disk w);
     heap := heap w;
     trace := trace w ++ [EvSave path {| active := Some sh |}] |}.

(** The world after [load_workbook(path)] gave the workbook [o]. *)
Definition loaded (w : world) (path : str) (o : Workbook) : world :=
  {| disk := disk w; heap := heap w ++ [o]; trace := trace w ++ [EvLoad path] |}.

(** The world after lines 42-50 (and 149-157): the directory, a new
    workbook with the header row, saved at [path]. *)
Definition created (w : world) (path : str) : world :=
  saved {| disk := disk w;
           heap := heap w ++ [{| active := Some [header] |}];
           trace := trace w ++ [EvMakedirs (lit "data")] |} path [header].

Definition finish (e : option exn) : result unit :=
  match e with
  | None => Ret tt
  | Some e => Raise e
  end.

Definition count_saves (evs : list event) : nat :=
  length (List.filter (fun ev => match ev with EvSave _ _ => true | _ => false end) evs).

Definition is_get (ev : event) : Prop :=
  match ev with
  | EvGet _ => True
  | _ => False
  end.

(** ** One call of the month fetcher, summarised *)

(** Lines 26-32: the exception, the early return, or [Ret None] when the
    call goes on. *)
Definition validate (now_year now_month : Z) (year month : str)
  : result (option outcome) :=
  match int year with
  | None => Raise ValueError
  | Some y =>
    if ((y <? 2011) || (y >? now_year))%Z then Ret (Some YearOutOfRange)
    else
      match int month with
      | None => Raise ValueError
      | Some m =>
        if ((m <? 1) || (m >? 12) || ((y =? now_year) && (m >? now_month)))%Z
        then Ret (Some MonthOutOfRange)
        else Ret None
      end
  end.

(** A year and a month the checks of lines 26-32 let through. *)
Definition in_range (now_year now_month y m : Z) : Prop :=
  (2011 <= y <= now_year /\ 1 <= m <= 12 /\ (y = now_year -> m <= now_month))%Z.

(** Lines 71-134 for the month as padded: how the call ends and the rows
    it appends. *)
Definition page_summary (net : str -> option Response) (city year month : str)
  : result outcome * list (list cell) :=
  match net (page_url city year month) with
  | None => (Raise RequestException, [])
  | Some response =>
    if (status_code response =? 200)%Z then
      match table response with
      | Some rows =>
        let '(rs, e) := extract_rows year month (drop 1 rows) in
        (match e with None => Ret Fetched | Some e => Raise e end, rs)
      | None => (Ret TableNotFound, [])
      end
    else (Ret PageInaccessible, [])
  end.

(** A call on a workbook object: how it ends, the rows it appends and its
    events. *)
Definition fetch_summary (now_year now_month : Z) (net : str -> option Response)
    (city year month : str)
  : result outcome * list (list cell) * list event :=
  match validate now_year now_month year month with
  | Raise e => (Raise e, [], [])
  | Ret (Some o) => (Ret o, [], [])
  | Ret None =>
    let '(r, rs) := page_summary net city year (padded month) in
    (r, rs, [EvGet (page_url city year (padded month))])
  end.


Definition month_events (now_year now_month : Z) (net : str -> option Response)
    (city year month : str) : list event :=
  (fetch_summary now_year now_month net city year month).2.


(** ** Counting *)

(** The number of times [k] stands in [l]. *)
Definition occurrences {K} `{EqDecision K} (k : K) (l : list K) : nat :=
  length (filter (fun x => x = k) l).

(** The number a cell reads as. *)
Definition cell_int (c : cell) : option Z :=
  match c with
  | CStr s => int s
  | CNum z => Some z
  | CNone => None
  end.

(** ** The worked examples *)

(** The rows of the worked examples. *)
Definition example_row : list str :=
  [lit "2023年3月5日"; lit "晴/多云"; lit "10℃/2℃"; lit "北风 3级/南风 2级"].

Definition example_record : list cell :=
  CStr <$> [lit "2023"; lit "3"; lit "5"; lit "晴"; lit "多云"; lit "10"; lit "2";
            lit "北风 3级"; lit "南风 2级"].

(** A page of four rows: the head row, two rows that match and one that
    does not. *)
Definition example_page : list row :=
  [RowOther; RowTag example_row; RowTag [lit "2023-03-06"]; RowTag example_row].

(** No file on disk, no workbook in memory, nothing done yet. *)
Definition empty_world : world := {| disk := ∅; heap := []; trace := [] |}.

Definition one_sheet (sh : sheet) : world :=
  {| disk := ∅; heap := [{| active := Some sh |}]; trace := [] |}.

(** A disk with the header-only dataset [history]. *)
Definition history_world : world :=
  {| disk := {[ data_path (lit "history") := {| active := Some [header] |} ]};
     heap := []; trace := [] |}.




(** A frame of one year, for the worked example: two days of January 2022
    and one of February. *)
Definition example_frame : DataFrame :=
  [ {| col_year := CStr (lit "2022"); col_month := CStr (lit "1");
       col_weather_day := CStr (lit "晴"); col_weather_night := CStr (lit "多云");
       col_wind_day := CStr (lit "北风 3级"); col_wind_night := CStr (lit "南风 3级") |};
    {| col_year := CStr (lit "2022"); col_month := CStr (lit "1");
       col_weather_day := CStr (lit "晴"); col_weather_night := CStr (lit "晴");
       col_wind_day := CStr (lit "北风 3级"); col_wind_night := CStr (lit "无持续风向") |};
    {| col_year := CStr (lit "2022"); col_month := CStr (lit "2");
       col_weather_day := CStr (lit "阴"); col_weather_night := CNone;
       col_wind_day := CStr (lit "北风 3-4级"); col_wind_night := CStr (lit "南风 3级") |} ].


(** ** Rows that raise *)

(** The test of line 85. *)
Definition is_tag (r : row) : bool :=
  match r with
  | RowTag _ => true
  | RowOther => false
  end.

(** A site that serves one page for every request. *)
Definition site_of (rows : list row) (url : str) : option Response :=
  Some {| status_code := 200; table := Some rows |}.



(** ** The requests of a run *)



(** ** Fetching month by month *)

(** The loop of lines 14-15 of test.py, for any file name, city, year and
    list of months: one call on the file name for each month. *)
Definition fetch_months_by_name (now_year now_month : Z) (net : str -> option Response)
    (file city year : str) (ms : list str) : M unit :=
  for_each ms
    (fun month =>
       let* _ := fetch_weather_data now_year now_month net (FileName file) city year month in
       ret tt).

(** ** The aggregates, read as a whole *)

(** A cell that holds a text. *)
Definition is_text (c : cell) : bool :=
  match c with
  | CStr _ => true
  | _ => false
  end.

(** The sum of the 出现次数 column. *)
Definition total_count {K} `{Countable K} (counts : gmap K (nat * quotient)) : nat :=
  map_fold (fun _ v n => (v.1 + n)%nat) O counts.

#[global] Instance exn_eq_dec : EqDecision exn.
Proof. solve_decision. Defined.

#[global] Instance result_eq_dec {A} `{EqDecision A} : EqDecision (result A).
Proof. solve_decision. Defined.




(** ** The order of two texts *)

Definition str_le (a b : str) : Prop := WeatherOrder.str_lt b a = false.

(** * Properties *)

(** ** What the date pattern matches *)

Section DatePattern.

Lemma re_match_group_nil p :
  re_match (AnyStarGroup :: p) [] = cons [] <$> re_match p [].
Proof. reflexivity. Qed.

Lemma re_match_group_cons p x s :
  re_match (AnyStarGroup :: p) (x :: s) =
    if x =? c_newline then cons [] <$> re_match p (x :: s)
    else
      match re_match (AnyStarGroup :: p) s with
      | Some (g :: gs) => Some ((x :: g) :: gs)
      | _ => cons [] <$> re_match p (x :: s)
      end.
Proof. reflexivity. Qed.

Lemma re_match_sound p : forall s gs, re_match p s = Some gs -> matches p s gs.
Proof.
  induction p as [|[c|] p IH]; intros s gs Hm.
  - simpl in Hm. injection Hm as <-. constructor.
  - destruct s as [|x s]; simpl in Hm; [discriminate|].
    destruct (N.eqb_spec x c) as [->|]; [|discriminate].
    constructor. auto.
  - revert gs Hm. induction s as [|x s IHs]; intros gs Hm.
    + rewrite re_match_group_nil in Hm.
      destruct (re_match p []) as [gs'|] eqn:E; [|discriminate].
      injection Hm as <-.
      apply (matches_group p [] []); [apply not_elem_of_nil | auto].
    + rewrite re_match_group_cons in Hm.
      assert (Hstop : cons [] <$> re_match p (x :: s) = Some gs -> matches (AnyStarGroup :: p) (x :: s) gs).
      { intros Hs. destruct (re_match p (x :: s)) as [gs'|] eqn:E; [|discriminate].
        injection Hs as <-.
        apply (matches_group p [] (x :: s)); [apply not_elem_of_nil | auto]. }
      destruct (N.eqb_spec x c_newline) as [->|Hx]; [auto|].
      destruct (re_match (AnyStarGroup :: p) s) as [[|g gs']|] eqn:E; [auto| |auto].
      injection Hm as <-.
      specialize (IHs _ eq_refl). inversion IHs; subst.
      match goal with
      | Hg : c_newline ∉ g, Hr : matches p ?t gs' |- _ =>
        apply (matches_group p (x :: g) t); [|exact Hr];
        rewrite not_elem_of_cons; split; [congruence | exact Hg]
      end.
Qed.

Lemma re_match_group_shape p s gs :
  re_match (AnyStarGroup :: p) s = Some gs -> exists g gs', gs = g :: gs'.
Proof.
  intros Hm. apply re_match_sound in Hm. inversion Hm; subst. eauto.
Qed.

Lemma re_match_complete p : forall s gs, matches p s gs -> is_Some (re_match p s).
Proof.
  intros s gs Hm. induction Hm as [s|c p s gs Hm IH|p g s gs Hg Hm IH].
  - simpl. eauto.
  - simpl. rewrite N.eqb_refl. assumption.
  - induction g as [|x g IHg].
    + simpl app. destruct IH as [gs' E].
      destruct s as [|y s].
      * rewrite re_match_group_nil, E. simpl. eauto.
      * rewrite re_match_group_cons.
        destruct (y =? c_newline); [rewrite E; simpl; eauto|].
        destruct (re_match (AnyStarGroup :: p) s) as [[|g' gs'']|]; rewrite ?E; simpl; eauto.
    + apply not_elem_of_cons in Hg as [Hx Hg].
      destruct (IHg Hg) as [gs' E].
      simpl app. rewrite re_match_group_cons.
      destruct (N.eqb_spec x c_newline) as [->|_]; [congruence|].
      rewrite E. destruct (re_match_group_shape _ _ _ E) as (g' & gs'' & ->). eauto.
Qed.

Lemma date_pattern_groups s gs :
  re_match date_pattern s = Some gs ->
  exists g1 g2 g3 rest : str,
    gs = [g1; g2; g3]
    /\ s = g1 ++ c_year :: g2 ++ c_month :: g3 ++ c_day :: rest
    /\ (c_newline ∉ g1) /\ (c_newline ∉ g2) /\ (c_newline ∉ g3).
Proof.
  intros Hm. apply re_match_sound in Hm. unfold date_pattern in Hm.
  repeat match goal with
         | H : matches (_ :: _) _ _ |- _ => inversion H; subst; clear H
         | H : matches [] _ _ |- _ => inversion H; subst; clear H
         end.
  eauto 10.
Qed.

Lemma date_pattern_matches_shape s :
  is_Some (re_match date_pattern s) <-> date_shape s.
Proof.
  split.
  - intros [gs Hm]. destruct (date_pattern_groups _ _ Hm) as (g1 & g2 & g3 & rest & _ & H).
    exists g1, g2, g3, rest. exact H.
  - intros (g1 & g2 & g3 & rest & -> & H1 & H2 & H3).
    apply (re_match_complete _ _ [g1; g2; g3]). unfold date_pattern.
    apply matches_group; [assumption|]. apply matches_lit.
    apply matches_group; [assumption|]. apply matches_lit.
    apply matches_group; [assumption|]. apply matches_lit.
    constructor.
Qed.

Lemma date_pattern_unmatched s :
  re_match date_pattern s = None <-> ~ date_shape s.
Proof.
  rewrite <- date_pattern_matches_shape, <- eq_None_not_Some. reflexivity.
Qed.

Lemma digits_then_split c s : forall seen r,
  digits_then c seen s = Some r -> exists g, s = g ++ c :: r /\ (c_newline ∉ g).
Proof.
  induction s as [|x s IH]; intros seen r; [discriminate|]. cbn [digits_then].
  destruct (char_isdigit x) eqn:Hx.
  - intros H. destruct (IH _ _ H) as (g & -> & Hg). exists (x :: g).
    split; [reflexivity|]. apply not_elem_of_cons. split; [|exact Hg].
    intros <-. discriminate.
  - destruct (N.eqb_spec x c) as [->|]; [|discriminate].
    destruct seen; [|discriminate]. intros [= <-]. exists [].
    split; [reflexivity|apply not_elem_of_nil].
Qed.

(** The numeric pattern of the specification is a case of the pattern of
    the code. *)
Lemma numeric_date_shape s : numeric_date s = true -> date_shape s.
Proof.
  unfold numeric_date.
  destruct (digits_then c_year false s) as [r1|] eqn:H1; [|discriminate].
  destruct (digits_then c_month false r1) as [r2|] eqn:H2; [|discriminate].
  intros [r3 H3]%bool_decide_eq_true_1.
  destruct (digits_then_split _ _ _ _ H1) as (g1 & -> & ?).
  destruct (digits_then_split _ _ _ _ H2) as (g2 & -> & ?).
  destruct (digits_then_split _ _ _ _ H3) as (g3 & -> & ?).
  exists g1, g2, g3, r3. auto.
Qed.

End DatePattern.

(** ** The row loop *)

Section RowLoop.

Lemma world_eta w : {| disk := disk w; heap := heap w; trace := trace w |} = w.
Proof. destruct w; reflexivity. Qed.

Lemma with_sheet_same w wb sh :
  heap w !! wb = Some {| active := Some sh |} -> with_sheet w wb sh = w.
Proof.
  intros H. unfold with_sheet. rewrite list_insert_id by exact H. apply world_eta.
Qed.

Lemma with_sheet_twice w wb sh sh' :
  with_sheet (with_sheet w wb sh) wb sh' = with_sheet w wb sh'.
Proof. unfold with_sheet. simpl. rewrite list_insert_insert_eq. reflexivity. Qed.

Lemma with_sheet_lookup w wb sh o :
  heap w !! wb = Some o ->
  heap (with_sheet w wb sh) !! wb = Some {| active := Some sh |}.
Proof.
  intros H. simpl. apply list_lookup_insert_eq. eapply lookup_lt_Some, H.
Qed.

Lemma with_events_nil w : with_events w [] = w.
Proof. unfold with_events. rewrite app_nil_r. apply world_eta. Qed.

Lemma for_each_app {A} (l1 l2 : list A) (f : A -> M unit) w :
  for_each (l1 ++ l2) f w = (let* _ := for_each l1 f in for_each l2 f) w.
Proof.
  revert w. induction l1 as [|x l1 IH]; intros w; [reflexivity|].
  simpl. unfold bind. destruct (f x w) as [[[]|e] w']; [apply IH|reflexivity].
Qed.

Lemma sheet_append_spec w wb sh r :
  heap w !! wb = Some {| active := Some sh |} ->
  sheet_append wb r w = (Ret tt, with_sheet w wb (sh ++ [r])).
Proof. intros H. unfold sheet_append. rewrite H. reflexivity. Qed.

Lemma for_each_process_row wb year month rows : forall w sh,
  heap w !! wb = Some {| active := Some sh |} ->
  for_each rows (process_row wb year month) w =
    (finish (extract_rows year month rows).2,
     with_sheet w wb (sh ++ (extract_rows year month rows).1)).
Proof.
  induction rows as [|[columns|] rows IH]; intros w sh Hwb.
  - simpl. rewrite app_nil_r, with_sheet_same by exact Hwb. reflexivity.
  - simpl. unfold bind at 1. unfold process_row, bind at 1.
    destruct (extract_row year month columns) as [[r|]|e]; simpl.
    + rewrite (sheet_append_spec _ _ _ _ Hwb).
      rewrite (IH _ (sh ++ [r])) by (eapply with_sheet_lookup, Hwb).
      destruct (extract_rows year month rows) as [rs e]. simpl.
      rewrite with_sheet_twice, <- app_assoc. reflexivity.
    + apply IH, Hwb.
    + rewrite app_nil_r, with_sheet_same by exact Hwb. reflexivity.
  - simpl. unfold bind at 1. simpl. apply IH, Hwb.
Qed.


End RowLoop.

(** ** One call of the month fetcher, summarised *)

Section MonthFetcher.

Variables now_year now_month : Z.
Variable net : str -> option Response.

Lemma save_spec w wb path sh :
  heap w !! wb = Some {| active := Some sh |} ->
  save wb path w = (Ret tt, saved w path sh).
Proof. intros H. unfold save. rewrite H. reflexivity. Qed.

Lemma fetch_page_spec file wb city year month w sh :
  heap w !! wb = Some {| active := Some sh |} ->
  fetch_page net file wb city year month w =
    let '(r, rs) := page_summary net city year month in
    let w1 := with_sheet (with_events w [EvGet (page_url city year month)]) wb (sh ++ rs) in
    (r, match file, r with
        | FileName name, Ret Fetched => saved w1 (data_path name) (sh ++ rs)
        | _, _ => w1
        end).
Proof.
  intros Hwb.
  assert (Hsame : with_sheet (with_events w [EvGet (page_url city year month)]) wb (sh ++ [])
                  = with_events w [EvGet (page_url city year month)]).
  { rewrite app_nil_r. apply with_sheet_same. exact Hwb. }
  unfold fetch_page, page_summary, requests_get.
  unfold bind at 1. unfold bind at 1. unfold emit at 1.
  change {| disk := disk w; heap := heap w; trace := trace w ++ [EvGet (page_url city year month)] |}
    with (with_events w [EvGet (page_url city year month)]).
  destruct (net (page_url city year month)) as [response|]; simpl lift.
  2:{ unfold raise. rewrite Hsame. destruct file; reflexivity. }
  unfold ret at 1.
  destruct (status_code response =? 200)%Z.
  2:{ unfold ret. rewrite Hsame. destruct file; reflexivity. }
  destruct (table response) as [rows|].
  2:{ unfold ret. rewrite Hsame. destruct file; reflexivity. }
  unfold bind at 1.
  rewrite (for_each_process_row wb year month (drop 1 rows) _ sh) by exact Hwb.
  destruct (extract_rows year month (drop 1 rows)) as [rs [e|]]; simpl finish; cbv iota beta.
  - destruct file; reflexivity.
  - destruct file as [name|wb'].
    + unfold bind at 1. simpl fst; simpl snd.
      rewrite (save_spec _ wb (data_path name) (sh ++ rs)).
      * reflexivity.
      * eapply with_sheet_lookup. exact Hwb.
    + reflexivity.
Qed.

Lemma fetch_weather_data_validate file city year month w :
  fetch_weather_data now_year now_month net file city year month w =
    match validate now_year now_month year month with
    | Raise e => (Raise e, w)
    | Ret (Some o) => (Ret o, w)
    | Ret None =>
      match file with
      | FileName name =>
        (let* found := path_exists (data_path name) in
         if negb found then
           let* _ := makedirs (lit "data") in
           let* wb := new_workbook in
           let* sheet := get_active wb in
           match sheet with
           | None => ret FailedToCreateSheet
           | Some _ =>
             let* _ := sheet_append wb header in
             let* _ := save wb (data_path name) in
             fetch_page net file wb city year (padded month)
           end
         else
           let* wb := load_workbook (data_path name) in
           let* sheet := get_active wb in
           match sheet with
           | None => ret FailedToLoadSheet
           | Some _ => fetch_page net file wb city year (padded month)
           end) w
      | FileWb wb =>
        (let* sheet := get_active wb in
         match sheet with
         | None => ret FailedToLoadSheet
         | Some _ => fetch_page net file wb city year (padded month)
         end) w
      end
    end.
Proof.
  unfold fetch_weather_data, validate.
  destruct (int year) as [y|]; [|reflexivity].
  unfold bind at 1. simpl lift. unfold ret at 1.
  destruct ((y <? 2011) || (y >? now_year))%Z; [reflexivity|].
  destruct (int month) as [m|]; [|reflexivity].
  unfold bind at 1. simpl lift. unfold ret at 1.
  destruct ((m <? 1) || (m >? 12) || ((y =? now_year) && (m >? now_month)))%Z; [reflexivity|].
  destruct file; reflexivity.
Qed.

Lemma fetch_weather_data_wb_spec wb city year month w sh :
  heap w !! wb = Some {| active := Some sh |} ->
  fetch_weather_data now_year now_month net (FileWb wb) city year month w =
    let '(r, rs, evs) := fetch_summary now_year now_month net city year month in
    (r, with_sheet (with_events w evs) wb (sh ++ rs)).
Proof.
  intros Hwb.
  assert (Hsame : with_sheet (with_events w []) wb (sh ++ []) = w).
  { rewrite app_nil_r, with_events_nil. apply with_sheet_same. exact Hwb. }
  rewrite fetch_weather_data_validate. unfold fetch_summary.
  destruct (validate now_year now_month year month) as [[o|]|e];
    [rewrite Hsame; reflexivity | | rewrite Hsame; reflexivity].
  unfold bind at 1, get_active. rewrite Hwb. cbn [active].
  rewrite (fetch_page_spec _ _ _ _ _ _ sh) by exact Hwb.
  destruct (page_summary net city year (padded month)) as [r rs]. reflexivity.
Qed.

End MonthFetcher.

(** ** The record extractor *)

Section RecordExtractor.

Lemma extract_row_matched year month date weather temperature wind rest g1 g2 g3 :
  re_match date_pattern date = Some [g1; g2; g3] ->
  extract_row year month (date :: weather :: temperature :: wind :: rest) =
    Ret (Some [CStr year; CStr (lstrip c_zero month); CStr (lstrip c_zero g3);
               CStr (halves weather).1; CStr (halves weather).2;
               CStr (rstrip c_celsius (halves temperature).1);
               CStr (rstrip c_celsius (halves temperature).2);
               CStr (halves wind).1; CStr (halves wind).2]).
Proof.
  intros Hm. unfold extract_row, column. cbn [lookup list_lookup of_option rbind].
  rewrite Hm. unfold halves.
  destruct (two_parts weather) as [[? ?]|];
    destruct (two_parts temperature) as [[? ?]|];
    destruct (two_parts wind) as [[? ?]|]; reflexivity.
Qed.

Lemma extract_row_unmatched year month date columns :
  columns !! 0%nat = Some date ->
  re_match date_pattern date = None ->
  extract_row year month columns = Ret None.
Proof.
  intros Hc Hm. unfold extract_row, column. rewrite Hc. cbn [of_option rbind].
  rewrite Hm. reflexivity.
Qed.

Lemma extract_row_some year month columns record :
  extract_row year month columns = Ret (Some record) ->
  exists date g1 g2 g3,
    columns !! 0%nat = Some date /\ re_match date_pattern date = Some [g1; g2; g3]
    /\ record !! 0%nat = Some (CStr year)
    /\ record !! 1%nat = Some (CStr (lstrip c_zero month))
    /\ record !! 2%nat = Some (CStr (lstrip c_zero g3)).
Proof.
  unfold extract_row, column. intros H.
  destruct (columns !! 0%nat) as [date|] eqn:Hc; [|discriminate].
  cbn [of_option rbind] in H.
  destruct (re_match date_pattern date) as [gs|] eqn:Hm; [|discriminate].
  destruct (date_pattern_groups _ _ Hm) as (g1 & g2 & g3 & rest & -> & _).
  exists date, g1, g2, g3. split; [reflexivity|]. split; [exact Hm|].
  destruct (columns !! 1%nat); [|discriminate]. cbn [of_option rbind] in H.
  destruct (two_parts _) as [[? ?]|];
    (destruct (columns !! 2%nat); [|discriminate]); cbn [of_option rbind] in H;
    (destruct (two_parts _) as [[? ?]|]);
    (destruct (columns !! 3%nat); [|discriminate]); cbn [of_option rbind] in H;
    (destruct (two_parts _) as [[? ?]|]);
    injection H as <-; auto.
Qed.


Lemma process_row_skip wb year month columns w :
  extract_row year month columns = Ret None ->
  process_row wb year month (RowTag columns) w = (Ret tt, w).
Proof. intros H. unfold process_row, bind. rewrite H. reflexivity. Qed.

End RecordExtractor.

(** C1, as the specification states it, fails: a date cell without one
    digit passes the test of line 89, and its row is appended. *)
Lemma C1_counterexample :
  numeric_date (lit "某年某月某日") = false
  /\ for_each
       [RowTag [lit "某年某月某日"; lit "晴/多云"; lit "10℃/2℃"; lit "北风 3级/南风 2级"]]
       (process_row 0 (lit "2023") (lit "03")) (one_sheet [header])
     = (Ret tt,
        one_sheet [header;
          CStr <$> [lit "2023"; lit "3"; lit "某"; lit "晴"; lit "多云"; lit "10"; lit "2";
                    lit "北风 3级"; lit "南风 2级"]]).
Proof. split; vm_compute; reflexivity. Qed.

(** C1 (amended): a row whose date cell the pattern of line 88 does not
    match - the cell is not of the form g1 年 g2 月 g3 日 followed by
    anything, for three runs g1, g2, g3 of characters other than the
    newline - yields no record, and the loop goes on as if the row were not
    there: the rows before and after it are extracted as without it. A row
    yields a record only if its date cell has that form, of which the
    numeric dates of the specification are a case. *)
Theorem C1_unmatched_date_row_is_skipped
    (wb : nat) (year month date : str) (columns : list str)
    (before after : list row) (w : world) :
  columns !! 0%nat = Some date ->
  re_match date_pattern date = None ->
  extract_row year month columns = Ret None
  /\ for_each (before ++ RowTag columns :: after) (process_row wb year month) w
     = for_each (before ++ after) (process_row wb year month) w
  /\ (forall s, re_match date_pattern s = None <-> ~ date_shape s)
  /\ (forall s, numeric_date s = true -> date_shape s)
  /\ (forall columns' record,
        extract_row year month columns' = Ret (Some record) ->
        exists date', columns' !! 0%nat = Some date' /\ date_shape date').
Proof.
  intros Hc Hm.
  pose proof (extract_row_unmatched year month _ _ Hc Hm) as Hskip.
  split; [exact Hskip|]. split; [|split; [|split]].
  - rewrite !for_each_app. unfold bind at 1 2.
    destruct (for_each before (process_row wb year month) w) as [[[]|e] w1]; [|reflexivity].
    change (for_each (RowTag columns :: after) (process_row wb year month) w1)
      with ((let* _ := process_row wb year month (RowTag columns) in
             for_each after (process_row wb year month)) w1).
    unfold bind at 1. rewrite (process_row_skip _ _ _ _ _ Hskip). reflexivity.
  - apply date_pattern_unmatched.
  - apply numeric_date_shape.
  - intros columns' record H.
    destruct (extract_row_some _ _ _ _ H) as (date' & g1 & g2 & g3 & Hd & Hm' & _).
    exists date'. split; [exact Hd|]. apply date_pattern_matches_shape. eauto.
Qed.

Lemma C1_witness :
  extract_row (lit "2023") (lit "03") [lit "2023-03-05"; lit "晴/多云"] = Ret None
  /\ for_each ([RowTag example_row] ++ RowTag [lit "2023-03-05"; lit "晴/多云"] :: [RowTag example_row])
       (process_row 0 (lit "2023") (lit "03")) (one_sheet [header])
     = (Ret tt, one_sheet [header; example_record; example_record]).
Proof.
  destruct (C1_unmatched_date_row_is_skipped 0%nat (lit "2023") (lit "03") (lit "2023-03-05")
              [lit "2023-03-05"; lit "晴/多云"] [RowTag example_row] [RowTag example_row]
              (one_sheet [header]) eq_refl eq_refl) as (H1 & H2 & _).
  split; [exact H1|]. rewrite H2. vm_compute. reflexivity.
Defined.

Lemma validate_in_range now_year now_month year month y m :
  int year = Some y -> int month = Some m ->
  in_range now_year now_month y m ->
  validate now_year now_month year month = Ret None.
Proof.
  intros Hy Hm (Hyr & Hmr & Hcur). unfold validate. rewrite Hy, Hm.
  destruct (Z.ltb_spec y 2011); [lia|].
  destruct (Z.gtb_spec y now_year); [lia|]. cbn [orb].
  destruct (Z.ltb_spec m 1); [lia|].
  destruct (Z.gtb_spec m 12); [lia|]. cbn [orb].
  destruct (Z.eqb_spec y now_year); [|reflexivity].
  destruct (Z.gtb_spec m now_month); [lia|reflexivity].
Qed.


(** C2: the worked example. Fetching year 2023, month 3 from a page whose
    table holds, after its head row, the row 2023年3月5日 | 晴/多云 | 10℃/2℃ |
    北风 3级/南风 2级 appends exactly one record, with the texts 2023, 3, 5,
    晴, 多云, 10, 2, 北风 3级, 南风 2级: the ℃ is gone from both temperatures,
    and the numeric fields read as 2023, 3, 5, 10 and 2. *)
Theorem C2_example_row_extracts
    (now_year now_month : Z) (net : str -> option Response)
    (wb : nat) (city : str) (head_row : row) (w : world) (sh : sheet) :
  (2023 < now_year \/ (now_year = 2023 /\ 3 <= now_month))%Z ->
  net (page_url city (lit "2023") (lit "03"))
    = Some {| status_code := 200; table := Some [head_row; RowTag example_row] |} ->
  heap w !! wb = Some {| active := Some sh |} ->
  fetch_weather_data now_year now_month net (FileWb wb) city (lit "2023") (lit "3") w
    = (Ret Fetched,
       with_sheet (with_events w [EvGet (page_url city (lit "2023") (lit "03"))]) wb
         (sh ++ [example_record]))
  /\ extract_row (lit "2023") (lit "03") example_row = Ret (Some example_record)
  /\ cell_int <$> example_record
     = [Some 2023; Some 3; Some 5; None; None; Some 10; Some 2; None; None]%Z.
Proof.
  intros Hnow Hnet Hwb. split; [|split; vm_compute; reflexivity].
  rewrite (fetch_weather_data_wb_spec _ _ _ _ _ _ _ _ sh) by exact Hwb.
  unfold fetch_summary.
  rewrite (validate_in_range _ _ _ _ 2023 3) by (reflexivity || (unfold in_range; lia)).
  change (padded (lit "3")) with (lit "03").
  unfold page_summary. rewrite Hnet. cbn [status_code table].
  change (200 =? 200)%Z with true. cbv iota.
  change (extract_rows (lit "2023") (lit "03") (drop 1 [head_row; RowTag example_row]))
    with ([example_record], @None exn).
  reflexivity.
Qed.

Lemma C2_witness :
  fetch_weather_data 2025 6
    (fun _ => Some {| status_code := 200; table := Some [RowOther; RowTag example_row] |})
    (FileWb 0) (lit "dalian") (lit "2023") (lit "3") (one_sheet [header])
  = (Ret Fetched,
     with_sheet
       (with_events (one_sheet [header])
          [EvGet (page_url (lit "dalian") (lit "2023") (lit "03"))]) 0
       ([header] ++ [example_record])).
Proof.
  refine (proj1 (C2_example_row_extracts 2025 6 _ 0%nat (lit "dalian") RowOther
                   (one_sheet [header]) [header] _ eq_refl eq_refl)).
  left. lia.
Defined.

(** C3, as the specification states it, fails: a temperature cell without
    a slash leaves both temperatures as the empty text, the value the
    conditions and the wind get in that case, and not as an empty cell. *)
Lemma C3_counterexample :
  extract_row (lit "2023") (lit "03")
    [lit "2023年3月5日"; lit "晴/多云"; lit "10℃"; lit "北风 3级/南风 2级"]
  = Ret (Some [CStr (lit "2023"); CStr (lit "3"); CStr (lit "5");
               CStr (lit "晴"); CStr (lit "多云");
               CStr []; CStr [];
               CStr (lit "北风 3级"); CStr (lit "南风 2级")])
  /\ CStr [] <> CNone.
Proof. split; [vm_compute; reflexivity | discriminate]. Qed.

(** C3 (amended): for a row whose date cell matches, each of the
    condition, temperature and wind cells is split on the slash by itself;
    when the split of a cell has two parts, its two fields are the stripped
    halves (the temperatures also without trailing ℃), and when it has not,
    both its fields are the empty text - for the temperatures as for the
    conditions and the wind. The record is appended in either case, with
    the fields of the other cells as their own cells give them. *)
Theorem C3_malformed_category_falls_back
    (year month date weather temperature wind : str) (rest : list str) :
  is_Some (re_match date_pattern date) ->
  exists day wd wn th tl fd fn,
    extract_row year month (date :: weather :: temperature :: wind :: rest)
      = Ret (Some [CStr year; CStr (lstrip c_zero month); CStr day;
                   CStr wd; CStr wn; CStr th; CStr tl; CStr fd; CStr fn])
    /\ (forall a b, split c_slash weather = [a; b] -> wd = strip a /\ wn = strip b)
    /\ (length (split c_slash weather) <> 2%nat -> wd = [] /\ wn = [])
    /\ (forall a b, split c_slash temperature = [a; b] ->
          th = rstrip c_celsius (strip a) /\ tl = rstrip c_celsius (strip b))
    /\ (length (split c_slash temperature) <> 2%nat -> th = [] /\ tl = [])
    /\ (forall a b, split c_slash wind = [a; b] -> fd = strip a /\ fn = strip b)
    /\ (length (split c_slash wind) <> 2%nat -> fd = [] /\ fn = []).
Proof.
  intros [gs Hm].
  destruct (date_pattern_groups _ _ Hm) as (g1 & g2 & g3 & tail & -> & _).
  assert (Hhalves : forall text,
    (forall a b, split c_slash text = [a; b] ->
       (halves text).1 = strip a /\ (halves text).2 = strip b)
    /\ (length (split c_slash text) <> 2%nat -> halves text = ([], []))).
  { intros text. unfold halves, two_parts.
    destruct (split c_slash text) as [|a [|b [|c l]]]; split; try discriminate;
      try (intros _; reflexivity).
    - intros a' b' [= <- <-]. split; reflexivity.
    - intros H. exfalso. apply H. reflexivity. }
  eexists _, _, _, _, _, _, _. split; [apply (extract_row_matched _ _ _ _ _ _ _ g1 g2 g3 Hm)|].
  destruct (Hhalves weather) as [Hw2 Hw0], (Hhalves temperature) as [Ht2 Ht0],
    (Hhalves wind) as [Hf2 Hf0].
  repeat split.
  - apply (Hw2 a b H).
  - apply (Hw2 a b H).
  - rewrite (Hw0 H). reflexivity.
  - rewrite (Hw0 H). reflexivity.
  - destruct (Ht2 a b H) as [-> _]. reflexivity.
  - destruct (Ht2 a b H) as [_ ->]. reflexivity.
  - rewrite (Ht0 H). reflexivity.
  - rewrite (Ht0 H). reflexivity.
  - apply (Hf2 a b H).
  - apply (Hf2 a b H).
  - rewrite (Hf0 H). reflexivity.
  - rewrite (Hf0 H). reflexivity.
Qed.

Lemma C3_witness :
  exists day wd wn th tl fd fn,
    extract_row (lit "2023") (lit "03")
      [lit "2023年3月5日"; lit "晴"; lit "10℃/2℃/1℃"; lit "北风 3级/南风 2级"]
      = Ret (Some [CStr (lit "2023"); CStr (lit "3"); CStr day;
                   CStr wd; CStr wn; CStr th; CStr tl; CStr fd; CStr fn])
    /\ (wd = [] /\ wn = []) /\ (th = [] /\ tl = [])
    /\ (fd = lit "北风 3级" /\ fn = lit "南风 2级").
Proof.
  destruct (C3_malformed_category_falls_back (lit "2023") (lit "03")
              (lit "2023年3月5日") (lit "晴") (lit "10℃/2℃/1℃") (lit "北风 3级/南风 2级") []
              (ex_intro _ _ eq_refl))
    as (day & wd & wn & th & tl & fd & fn & H & _ & Hw & _ & Ht & Hf & _).
  exists day, wd, wn, th, tl, fd, fn. split; [exact H|].
  split; [apply Hw; vm_compute; discriminate|].
  split; [apply Ht; vm_compute; discriminate|].
  apply (Hf (lit "北风 3级") (lit "南风 2级")). vm_compute. reflexivity.
Defined.

(** ** Pages whose rows all extract *)

Section CompletePages.



End CompletePages.





(** ** A call on a file name *)

Section FileName.

Variables now_year now_month : Z.
Variable net : str -> option Response.

Lemma open_found w path sh :
  disk w !! path = Some {| active := Some sh |} ->
  path_exists path w = (Ret true, w)
  /\ load_workbook path w = (Ret (length (heap w)), loaded w path {| active := Some sh |})
  /\ heap (loaded w path {| active := Some sh |}) !! length (heap w)
     = Some {| active := Some sh |}.
Proof.
  intros H. unfold path_exists, load_workbook. rewrite H.
  rewrite bool_decide_eq_true_2 by eauto.
  split; [reflexivity|]. split; [reflexivity|]. apply list_lookup_middle. reflexivity.
Qed.

Lemma bind_ret_eq {A B} (m : M A) (k : A -> M B) w a w' :
  m w = (Ret a, w') -> bind m k w = k a w'.
Proof. intros H. unfold bind. rewrite H. reflexivity. Qed.

Lemma get_active_spec w wb o :
  heap w !! wb = Some o -> get_active wb w = (Ret (active o), w).
Proof. intros H. unfold get_active. rewrite H. reflexivity. Qed.

(** Lines 42-50, step by step. *)
Lemma create_steps w path :
  let w1 := with_events w [EvMakedirs (lit "data")] in
  let wb := length (heap w) in
  let w2 := {| disk := disk w1; heap := heap w1 ++ [{| active := Some [] |}];
               trace := trace w1 |} in
  makedirs (lit "data") w = (Ret tt, w1)
  /\ new_workbook w1 = (Ret wb, w2)
  /\ get_active wb w2 = (Ret (Some []), w2)
  /\ sheet_append wb header w2 = (Ret tt, with_sheet w2 wb [header])
  /\ save wb path (with_sheet w2 wb [header]) = (Ret tt, created w path)
  /\ heap (created w path) !! wb = Some {| active := Some [header] |}.
Proof.
  intros w1 wb w2.
  assert (H2 : heap w2 !! wb = Some {| active := Some [] |}).
  { apply list_lookup_middle. reflexivity. }
  assert (Hins : with_sheet w2 wb [header]
                 = {| disk := disk w;
                      heap := heap w ++ [{| active := Some [header] |}];
                      trace := trace w ++ [EvMakedirs (lit "data")] |}).
  { unfold with_sheet. f_equal. subst w2 wb w1. cbn [heap with_events].
    rewrite insert_app_r_alt by lia. rewrite Nat.sub_diag. reflexivity. }
  assert (H3 : heap (with_sheet w2 wb [header]) !! wb = Some {| active := Some [header] |}).
  { eapply with_sheet_lookup, H2. }
  split; [reflexivity|]. split; [reflexivity|].
  split; [apply (get_active_spec _ _ _ H2)|].
  split; [apply (sheet_append_spec _ _ [] _ H2)|].
  split.
  - rewrite (save_spec _ _ _ _ H3), Hins. reflexivity.
  - unfold created, saved. cbn [heap]. apply list_lookup_middle. reflexivity.
Qed.

Lemma open_missing w path :
  disk w !! path = None ->
  path_exists path w = (Ret false, w).
Proof.
  intros H. unfold path_exists. rewrite H.
  rewrite bool_decide_eq_false_2 by (intros [? ?]; discriminate). reflexivity.
Qed.

Lemma fetch_weather_data_file_found name city year month w sh :
  validate now_year now_month year month = Ret None ->
  disk w !! data_path name = Some {| active := Some sh |} ->
  fetch_weather_data now_year now_month net (FileName name) city year month w =
    let '(r, rs) := page_summary net city year (padded month) in
    let w1 :=
      with_sheet
        (with_events (loaded w (data_path name) {| active := Some sh |})
           [EvGet (page_url city year (padded month))])
        (length (heap w)) (sh ++ rs) in
    (r, match r with
        | Ret Fetched => saved w1 (data_path name) (sh ++ rs)
        | _ => w1
        end).
Proof.
  intros Hv Hd. destruct (open_found w _ _ Hd) as (He & Hl & Hh).
  rewrite fetch_weather_data_validate, Hv.
  unfold bind at 1. rewrite He. cbn [negb].
  unfold bind at 1. rewrite Hl.
  unfold bind at 1, get_active. rewrite Hh. cbn [active].
  rewrite (fetch_page_spec _ _ _ _ _ _ _ sh) by exact Hh.
  destruct (page_summary net city year (padded month)) as [r rs]. reflexivity.
Qed.

Lemma fetch_weather_data_file_missing name city year month w :
  validate now_year now_month year month = Ret None ->
  disk w !! data_path name = None ->
  fetch_weather_data now_year now_month net (FileName name) city year month w =
    let '(r, rs) := page_summary net city year (padded month) in
    let w1 :=
      with_sheet
        (with_events (created w (data_path name))
           [EvGet (page_url city year (padded month))])
        (length (heap w)) ([header] ++ rs) in
    (r, match r with
        | Ret Fetched => saved w1 (data_path name) ([header] ++ rs)
        | _ => w1
        end).
Proof.
  intros Hv Hd.
  destruct (create_steps w (data_path name)) as (H1 & H2 & H3 & H4 & H5 & H6).
  rewrite fetch_weather_data_validate, Hv.
  rewrite (bind_ret_eq _ _ _ _ _ (open_missing w _ Hd)). cbn [negb].
  rewrite (bind_ret_eq _ _ _ _ _ H1).
  rewrite (bind_ret_eq _ _ _ _ _ H2).
  rewrite (bind_ret_eq _ _ _ _ _ H3).
  rewrite (bind_ret_eq _ _ _ _ _ H4).
  rewrite (bind_ret_eq _ _ _ _ _ H5).
  rewrite (fetch_page_spec _ _ _ _ _ _ _ [header]) by exact H6.
  destruct (page_summary net city year (padded month)) as [r rs]. reflexivity.
Qed.

End FileName.

(** ** The month fetcher and the backing file *)






(** ** The year orchestrator *)

Section YearOrchestrator.

Variables now_year now_month : Z.
Variable net : str -> option Response.


Lemma month_events_get city year month : Forall is_get (month_events now_year now_month net city year month).
Proof.
  unfold month_events, fetch_summary.
  destruct (validate now_year now_month year month) as [[o|]|e]; [constructor| |constructor].
  destruct (page_summary _ _ _ _). repeat constructor.
Qed.




End YearOrchestrator.




(** ** The aggregates *)

Section Aggregates.

Lemma groupby_size_lookup {K} `{Countable K} (keys : list K) (k : K) :
  groupby_size keys !! k =
    match occurrences k keys with
    | O => None
    | n => Some n
    end.
Proof.
  unfold groupby_size, occurrences. induction keys as [|k0 keys IH]; [reflexivity|].
  cbn [foldr]. destruct (decide (k0 = k)) as [->|Hne].
  - rewrite lookup_insert_eq, filter_cons_True by reflexivity. rewrite IH.
    cbn [length]. destruct (length (filter (fun x => x = k) keys)); reflexivity.
  - rewrite lookup_insert_ne by exact Hne. rewrite filter_cons_False by exact Hne.
    exact IH.
Qed.

Lemma groupby_size_positive {K} `{Countable K} (keys : list K) (k : K) n :
  groupby_size keys !! k = Some n -> n = occurrences k keys /\ (0 < n)%nat.
Proof.
  rewrite groupby_size_lookup. destruct (occurrences k keys); [discriminate|].
  intros [= <-]. split; [reflexivity|lia].
Qed.





End Aggregates.


(** In the frame of one year, 3级 occurs three times in January, and its
    yearly average is three. *)
Example example_frame_counts :
  years_count example_frame = 1%nat
  /\ (forall counts, wind_counts example_frame = Ret counts ->
        counts !! (CStr (lit "1"), lit "3级") = Some (3%nat, Finite (inject_Z 3)))
  /\ weather_counts example_frame !! (CStr (lit "1"), CStr (lit "晴"))
     = Some (3%nat, Finite (inject_Z 3)).
Proof.
  split; [reflexivity|]. split; [|vm_compute; reflexivity].
  intros counts [= <-]. vm_compute. reflexivity.
Qed.

(** ** The force-level sort key *)

Section SortKey.

Lemma digit_cases c :
  char_isdigit c = true ->
  c = 48 \/ c = 49 \/ c = 50 \/ c = 51 \/ c = 52 \/ c = 53 \/ c = 54 \/ c = 55
  \/ c = 56 \/ c = 57.
Proof.
  unfold char_isdigit. intros [H1 H2]%andb_prop.
  apply N.leb_le in H1, H2. lia.
Qed.














End SortKey.


(** * More of fetch.py *)

(** ** Rows that raise, and rows that are no tags *)

Section RaisingRows.






Lemma extract_rows_tags year month rows :
  extract_rows year month rows = extract_rows year month (List.filter is_tag rows).
Proof.
  induction rows as [|[columns|] rows IH]; [reflexivity| |exact IH].
  cbn [List.filter is_tag extract_rows]. rewrite IH. reflexivity.
Qed.

Lemma extract_rows_count year month rows :
  (length (extract_rows year month rows).1 <= length (List.filter row_matches rows))%nat.
Proof.
  induction rows as [|[columns|] rows IH]; [reflexivity| |exact IH].
  cbn [extract_rows].
  destruct (extract_row year month columns) as [[record|]|e] eqn:He.
  - destruct (extract_row_some _ _ _ _ He) as (date & g1 & g2 & g3 & Hd & Hm & _).
    destruct columns as [|date' others]; [discriminate|]. injection Hd as ->.
    cbn [List.filter row_matches]. rewrite bool_decide_eq_true_2 by eauto.
    destruct (extract_rows year month rows) as [rs e]. cbn in IH |- *. lia.
  - etransitivity; [exact IH|]. cbn [List.filter].
    destruct (row_matches (RowTag columns)); cbn; lia.
  - cbn. lia.
Qed.

End RaisingRows.


(** X2: rows that are no tags (line 85, 125-126) count for nothing: the
    loop over a list of rows ends as the loop over its tags, in the same
    world. *)
Theorem X2_rows_that_are_no_tags_are_passed_over
    (wb : nat) (year month : str) (rows : list row) (w : world) :
  for_each rows (process_row wb year month) w
  = for_each (List.filter is_tag rows) (process_row wb year month) w.
Proof.
  revert w. induction rows as [|[columns|] rows IH]; intros w; [reflexivity| |].
  - cbn [List.filter is_tag for_each]. unfold bind.
    destruct (process_row wb year month (RowTag columns) w) as [[[]|e] w1];
      [apply IH|reflexivity].
  - cbn [List.filter is_tag for_each]. unfold bind. cbn. apply IH.
Qed.

(** ** A page with a row that raises *)

Section RaisingPages.

Variables now_year now_month : Z.
Variable net : str -> option Response.


End RaisingPages.





(** ** What a call leaves alone *)

Section Frames.

Variables now_year now_month : Z.
Variable net : str -> option Response.

Lemma count_saves_app evs1 evs2 :
  count_saves (evs1 ++ evs2) = (count_saves evs1 + count_saves evs2)%nat.
Proof. unfold count_saves. rewrite List.filter_app, length_app. reflexivity. Qed.

Lemma count_saves_gets evs : Forall is_get evs -> count_saves evs = 0%nat.
Proof.
  induction 1 as [|ev evs Hev _ IH]; [reflexivity|].
  destruct ev; try contradiction. exact IH.
Qed.

Lemma fetch_summary_gets city year month :
  Forall is_get (fetch_summary now_year now_month net city year month).2.
Proof. apply (month_events_get now_year now_month net). Qed.

Lemma fetch_weather_data_wb_no_sheet wb city year month w :
  heap w !! wb = None \/ heap w !! wb = Some {| active := None |} ->
  (fetch_weather_data now_year now_month net (FileWb wb) city year month w).2 = w.
Proof.
  intros H. rewrite fetch_weather_data_validate.
  destruct (validate now_year now_month year month) as [[o|]|e]; [reflexivity| |reflexivity].
  unfold bind, get_active. destruct H as [-> | ->]; reflexivity.
Qed.

Lemma fetch_weather_data_file_no_sheet name city year month w :
  validate now_year now_month year month = Ret None ->
  disk w !! data_path name = Some {| active := None |} ->
  fetch_weather_data now_year now_month net (FileName name) city year month w
  = (Ret FailedToLoadSheet, loaded w (data_path name) {| active := None |}).
Proof.
  intros Hv Hd. rewrite fetch_weather_data_validate, Hv.
  unfold bind at 1, path_exists. rewrite Hd.
  rewrite bool_decide_eq_true_2 by eauto. cbn [negb].
  unfold bind at 1, load_workbook. rewrite Hd.
  unfold bind, get_active. cbn [heap].
  rewrite list_lookup_middle by reflexivity. reflexivity.
Qed.

Lemma heap_kept (h : list Workbook) o o' i x :
  h !! i = Some x -> (<[length h := o']> (h ++ [o])) !! i = Some x.
Proof.
  intros H. pose proof (lookup_lt_Some _ _ _ H) as Hlt.
  rewrite list_lookup_insert_ne by lia. rewrite lookup_app_l by exact Hlt. exact H.
Qed.

End Frames.

(** X5: whatever a call on a workbook does - return, end on an error or
    raise - the disk is as before, nothing is saved, no workbook is made
    and every other workbook is as before; the sheet of the workbook, when
    it has one, is the old sheet with rows added at its end. *)
Theorem X5_a_call_on_a_workbook_touches_that_workbook_only
    (now_year now_month : Z) (net : str -> option Response)
    (wb : nat) (city year month : str) (w : world) :
  let r := fetch_weather_data now_year now_month net (FileWb wb) city year month w in
  disk r.2 = disk w
  /\ count_saves (trace r.2) = count_saves (trace w)
  /\ length (heap r.2) = length (heap w)
  /\ (forall i, i <> wb -> heap r.2 !! i = heap w !! i)
  /\ (forall sh, heap w !! wb = Some {| active := Some sh |} ->
        exists records, heap r.2 !! wb = Some {| active := Some (sh ++ records) |})
  /\ (heap w !! wb = Some {| active := None |} ->
      r = (Ret FailedToLoadSheet, w)
      \/ (exists o, r = (Ret o, w) /\ (o = YearOutOfRange \/ o = MonthOutOfRange))
      \/ r = (Raise ValueError, w)).
Proof.
  intros r. subst r.
  destruct (heap w !! wb) as [[[sh|]]|] eqn:Hwb.
  - rewrite (fetch_weather_data_wb_spec _ _ _ _ _ _ _ _ sh) by exact Hwb.
    pose proof (fetch_summary_gets now_year now_month net city year month) as Hg.
    destruct (fetch_summary now_year now_month net city year month) as [[r rs] evs].
    cbn [fst snd] in *. split; [reflexivity|]. split; [|split; [|split; [|split]]].
    + cbn [with_sheet with_events trace].
      rewrite count_saves_app, (count_saves_gets _ Hg). lia.
    + cbn [with_sheet heap]. apply length_insert.
    + intros i Hi. cbn [with_sheet heap with_events].
      apply list_lookup_insert_ne. congruence.
    + intros sh' [= <-]. exists rs. eapply with_sheet_lookup. exact Hwb.
    + discriminate.
  - rewrite (fetch_weather_data_wb_no_sheet _ _ _ _ _ _ _ _ (or_intror Hwb)).
    repeat split; try reflexivity; try discriminate.
    intros _. rewrite fetch_weather_data_validate.
    destruct (validate now_year now_month year month) as [[o|]|e] eqn:Hv.
    + right. left. exists o. split; [reflexivity|]. unfold validate in Hv.
      destruct (int year) as [y|]; [|discriminate].
      destruct ((y <? 2011) || (y >? now_year))%Z; [injection Hv as <-; auto|].
      destruct (int month) as [m|]; [|discriminate].
      destruct ((m <? 1) || (m >? 12) || ((y =? now_year) && (m >? now_month)))%Z;
        [injection Hv as <-; auto|discriminate].
    + left. unfold bind, get_active. rewrite Hwb. reflexivity.
    + right. right. unfold validate in Hv.
      destruct (int year) as [y|]; [|injection Hv as <-; reflexivity].
      destruct ((y <? 2011) || (y >? now_year))%Z; [discriminate|].
      destruct (int month) as [m|]; [|injection Hv as <-; reflexivity].
      destruct ((m <? 1) || (m >? 12) || ((y =? now_year) && (m >? now_month)))%Z;
        discriminate.
  - rewrite (fetch_weather_data_wb_no_sheet _ _ _ _ _ _ _ _ (or_introl Hwb)).
    repeat split; try reflexivity; discriminate.
Qed.

(** X6: whatever a call on a file name does, every other file on the disk
    is as before and so is every workbook that was in memory; the file of
    the name, when it existed with a sheet, holds afterwards the old sheet
    with rows added at its end - no row of it is changed or removed. *)
Theorem X6_a_call_on_a_name_touches_that_file_only
    (now_year now_month : Z) (net : str -> option Response)
    (name city year month : str) (w : world) :
  let r := fetch_weather_data now_year now_month net (FileName name) city year month w in
  (forall path, path <> data_path name -> disk r.2 !! path = disk w !! path)
  /\ (forall i o, heap w !! i = Some o -> heap r.2 !! i = Some o)
  /\ (forall sh, disk w !! data_path name = Some {| active := Some sh |} ->
        exists records,
          disk r.2 !! data_path name = Some {| active := Some (sh ++ records) |}).
Proof.
  intros r. subst r.
  destruct (validate now_year now_month year month) as [[o|]|e] eqn:Hv.
  1,3: rewrite fetch_weather_data_validate, Hv; cbn [snd];
       (split; [reflexivity|]); (split; [auto|]);
       intros sh Hd; exists []; rewrite app_nil_r; exact Hd.
  destruct (disk w !! data_path name) as [[[sh|]]|] eqn:Hd.
  - rewrite (fetch_weather_data_file_found _ _ _ _ _ _ _ _ sh Hv Hd).
    destruct (page_summary net city year (padded month)) as [r rs].
    assert (Hsame : forall path,
              disk (with_sheet
                      (with_events (loaded w (data_path name) {| active := Some sh |})
                         [EvGet (page_url city year (padded month))])
                      (length (heap w)) (sh ++ rs)) !! path = disk w !! path)
      by reflexivity.
    split; [|split].
    + intros path Hp. destruct r as [[]|]; cbn [snd]; try apply Hsame.
      unfold saved. cbn [disk]. rewrite lookup_insert_ne by congruence. reflexivity.
    + intros i o Hi.
      destruct r as [[]|]; cbn [snd saved with_sheet with_events loaded heap];
        apply heap_kept; exact Hi.
    + intros sh' [= <-].
      destruct r as [[]|]; cbn [snd]; try (exists []; rewrite app_nil_r; exact Hd).
      exists rs. unfold saved. cbn [disk]. apply lookup_insert_eq.
  - rewrite (fetch_weather_data_file_no_sheet _ _ _ _ _ _ _ _ Hv Hd). cbn [snd loaded disk heap].
    split; [reflexivity|]. split; [|discriminate].
    intros i o Hi. rewrite lookup_app_l by (eapply lookup_lt_Some; exact Hi). exact Hi.
  - rewrite (fetch_weather_data_file_missing _ _ _ _ _ _ _ _ Hv Hd).
    destruct (page_summary net city year (padded month)) as [r rs].
    split; [|split; [|discriminate]].
    + intros path Hp.
      destruct r as [[]|]; cbn [snd saved with_sheet with_events created disk];
        rewrite ?lookup_insert_ne by congruence; reflexivity.
    + intros i o Hi.
      destruct r as [[]|]; cbn [snd saved with_sheet with_events created heap];
        apply heap_kept; exact Hi.
Qed.

(** ** Pages without the table, texts that are no numerals, short months *)

Section MoreOfTheFetcher.

Lemma int_zero_digit d : char_isdigit d = true -> int [c_zero; d] = int [d].
Proof.
  intros H. destruct (digit_cases d H) as [->|[->|[->|[->|[->|[->|[->|[->|[->| ->]]]]]]]]];
    reflexivity.
Qed.

Lemma validate_padded now_year now_month year d :
  char_isdigit d = true ->
  validate now_year now_month year [c_zero; d] = validate now_year now_month year [d].
Proof. intros H. unfold validate. rewrite (int_zero_digit d H). reflexivity. Qed.

End MoreOfTheFetcher.





(** X9: a month of one digit and the same month with a zero in front are
    one call: the same checks, the same page (line 35 pads the month for
    the URL) and the same month column (line 123 strips the zeros), hence
    the same result in the same world. *)
Theorem X9_a_one_digit_month_is_its_padded_form
    (now_year now_month : Z) (net : str -> option Response)
    (file : file_arg) (city year : str) (d : char) (w : world) :
  char_isdigit d = true ->
  fetch_weather_data now_year now_month net file city year [d] w
  = fetch_weather_data now_year now_month net file city year [c_zero; d] w.
Proof.
  intros H. rewrite !fetch_weather_data_validate, (validate_padded _ _ _ _ H).
  reflexivity.
Qed.

Lemma X9_witness :
  fetch_weather_data 2025 6 (site_of example_page) (FileName (lit "history"))
    (lit "dalian") (lit "2023") (lit "3") history_world
  = fetch_weather_data 2025 6 (site_of example_page) (FileName (lit "history"))
      (lit "dalian") (lit "2023") (lit "03") history_world.
Proof.
  exact (X9_a_one_digit_month_is_its_padded_form 2025 6 (site_of example_page)
           (FileName (lit "history")) (lit "dalian") (lit "2023") 51 history_world eq_refl).
Defined.

(** X10: a call on a workbook appends at most one record for each row of
    the page, the head row apart, that is a tag with a matching date cell,
    and none when the page has no table. *)
Theorem X10_at_most_one_record_for_a_matching_row
    (now_year now_month : Z) (net : str -> option Response)
    (wb : nat) (city year month : str) (response : Response) (w : world) (sh : sheet) :
  heap w !! wb = Some {| active := Some sh |} ->
  net (page_url city year (padded month)) = Some response ->
  exists r records evs,
    fetch_weather_data now_year now_month net (FileWb wb) city year month w
      = (r, with_sheet (with_events w evs) wb (sh ++ records))
    /\ (length records <=
        match table response with
        | Some rows => length (List.filter row_matches (drop 1 rows))
        | None => 0
        end)%nat.
Proof.
  intros Hwb Hnet.
  rewrite (fetch_weather_data_wb_spec _ _ _ _ _ _ _ _ sh) by exact Hwb.
  unfold fetch_summary.
  destruct (validate now_year now_month year month) as [[o|]|e];
    [eexists _, [], _; split; [reflexivity|cbn; lia] |
    | eexists _, [], _; split; [reflexivity|cbn; lia]].
  unfold page_summary. rewrite Hnet.
  destruct (status_code response =? 200)%Z;
    [|eexists _, [], _; split; [reflexivity|cbn; lia]].
  destruct (table response) as [rows|];
    [|eexists _, [], _; split; [reflexivity|cbn; lia]].
  pose proof (extract_rows_count year (padded month) (drop 1 rows)) as Hc.
  destruct (extract_rows year (padded month) (drop 1 rows)) as [rs e].
  eexists _, rs, _. split; [reflexivity|exact Hc].
Qed.

Lemma X10_witness :
  exists r records evs,
    fetch_weather_data 2025 6 (site_of example_page) (FileWb 0)
      (lit "dalian") (lit "2023") (lit "3") (one_sheet [header])
      = (r, with_sheet (with_events (one_sheet [header]) evs) 0 ([header] ++ records))
    /\ (length records <= 2)%nat.
Proof.
  exact (X10_at_most_one_record_for_a_matching_row 2025 6 (site_of example_page) 0%nat
           (lit "dalian") (lit "2023") (lit "3")
           {| status_code := 200; table := Some example_page |}
           (one_sheet [header]) [header] eq_refl eq_refl).
Defined.

(** ** More of the year orchestrator *)

Section MoreOfTheOrchestrator.

Variables now_year now_month : Z.
Variable net : str -> option Response.













End MoreOfTheOrchestrator.







(** ** Month by month on a file name *)

Section MonthByMonth.

Variables now_year now_month : Z.
Variable net : str -> option Response.



End MonthByMonth.



(** ** The script, run again *)

Section ScriptTwice.

Variables now_year now_month : Z.
Variable net : str -> option Response.

Lemma bind_ret_inv {A B} (m : M A) (k : A -> M B) w b w' :
  bind m k w = (Ret b, w') -> exists a w1, m w = (Ret a, w1) /\ k a w1 = (Ret b, w').
Proof.
  unfold bind. destruct (m w) as [[a|e] w1]; [eauto|discriminate].
Qed.

Lemma path_exists_spec path w :
  path_exists path w = (Ret (bool_decide (is_Some (disk w !! path))), w).
Proof. reflexivity. Qed.

Lemma fetch_wb_disk wb city year month w :
  disk (fetch_weather_data now_year now_month net (FileWb wb) city year month w).2 = disk w.
Proof.
  destruct (heap w !! wb) as [[[sh|]]|] eqn:Hwb.
  - rewrite (fetch_weather_data_wb_spec _ _ _ _ _ _ _ _ sh) by exact Hwb.
    destruct (fetch_summary now_year now_month net city year month) as [[r rs] evs].
    reflexivity.
  - rewrite (fetch_weather_data_wb_no_sheet _ _ _ _ _ _ _ _ (or_intror Hwb)). reflexivity.
  - rewrite (fetch_weather_data_wb_no_sheet _ _ _ _ _ _ _ _ (or_introl Hwb)). reflexivity.
Qed.

Lemma loop_wb_disk wb city year ms : forall w,
  disk (for_each ms
          (fun month =>
             let* _ := fetch_weather_data now_year now_month net (FileWb wb) city year month in
             ret tt) w).2 = disk w.
Proof.
  induction ms as [|month ms IH]; intros w; [reflexivity|].
  cbn [for_each]. unfold bind at 1. unfold bind at 1.
  pose proof (fetch_wb_disk wb city year month w) as Hd.
  destruct (fetch_weather_data now_year now_month net (FileWb wb) city year month w)
    as [[o|e] w1]; cbn [snd] in Hd.
  - unfold ret at 1. rewrite IH. exact Hd.
  - exact Hd.
Qed.

Lemma year_run_tail wb path city year w0 b w' :
  (let* _ :=
     for_each months
       (fun month =>
          let* _ := fetch_weather_data now_year now_month net (FileWb wb) city year month in
          ret tt) in
   let* _ := save wb path in
   ret true) w0 = (Ret b, w') ->
  exists o, disk w' = <[path := o]> (disk w0).
Proof.
  intros H. apply bind_ret_inv in H as ([] & w2 & Hloop & H).
  apply bind_ret_inv in H as ([] & w3 & Hsave & H). injection H as _ <-.
  pose proof (loop_wb_disk wb city year months w0) as Hd. rewrite Hloop in Hd. cbn in Hd.
  unfold save in Hsave. destruct (heap w2 !! wb) as [o|]; [|discriminate].
  injection Hsave as <-. exists o. cbn [disk]. rewrite Hd. reflexivity.
Qed.

Lemma year_run_keeps file city year w b w' :
  fetch_weather_data_year now_year now_month net file city year w = (Ret b, w') ->
  is_Some (disk w' !! data_path file)
  /\ (forall path, is_Some (disk w !! path) -> is_Some (disk w' !! path)).
Proof.
  unfold fetch_weather_data_year. intros H.
  rewrite (bind_ret_eq _ _ _ _ _ (path_exists_spec _ w)) in H.
  destruct (disk w !! data_path file) as [o0|] eqn:Hd.
  - rewrite bool_decide_eq_true_2 in H by eauto. cbn [negb] in H.
    apply bind_ret_inv in H as (opened & w1 & Hopen & H).
    unfold bind, load_workbook in Hopen. rewrite Hd in Hopen. injection Hopen as <- <-.
    apply year_run_tail in H as [o Ho]. rewrite Ho. cbn [disk]. split.
    + rewrite lookup_insert_eq. eauto.
    + intros path Hp. destruct (decide (data_path file = path)) as [<-|Hne].
      * rewrite lookup_insert_eq. eauto.
      * rewrite lookup_insert_ne by exact Hne. exact Hp.
  - rewrite bool_decide_eq_false_2 in H by (intros [? ?]; discriminate). cbn [negb] in H.
    destruct (create_steps w (data_path file)) as (H1 & H2 & H3 & H4 & H5 & H6).
    unfold bind at 1 in H.
    rewrite (bind_ret_eq _ _ _ _ _ H1) in H.
    rewrite (bind_ret_eq _ _ _ _ _ H2) in H.
    rewrite (bind_ret_eq _ _ _ _ _ H3) in H.
    rewrite (bind_ret_eq _ _ _ _ _ H4) in H.
    rewrite (bind_ret_eq _ _ _ _ _ H5) in H. unfold ret at 1 in H.
    apply year_run_tail in H as [o Ho]. rewrite Ho. split.
    + rewrite lookup_insert_eq. eauto.
    + intros path Hp. destruct (decide (data_path file = path)) as [<-|Hne].
      * rewrite lookup_insert_eq. eauto.
      * rewrite lookup_insert_ne by exact Hne.
        unfold created, saved. cbn [disk]. rewrite lookup_insert_ne by exact Hne. exact Hp.
Qed.

Lemma fetch_name_disk name city year month w :
  let w' := (fetch_weather_data now_year now_month net (FileName name) city year month w).2 in
  (forall path, is_Some (disk w !! path) -> is_Some (disk w' !! path))
  /\ (disk w' !! data_path name = None -> w' = w).
Proof.
  intros w'. subst w'.
  destruct (validate now_year now_month year month) as [[o|]|e] eqn:Hv.
  1,3: rewrite fetch_weather_data_validate, Hv; cbn [snd]; auto.
  assert (Hins : forall (d : gmap str Workbook) o path,
            is_Some (d !! path) -> is_Some (<[data_path name := o]> d !! path)).
  { intros d o path Hp. destruct (decide (data_path name = path)) as [<-|Hne].
    - rewrite lookup_insert_eq. eauto.
    - rewrite lookup_insert_ne by exact Hne. exact Hp. }
  destruct (disk w !! data_path name) as [[[sh|]]|] eqn:Hd.
  - rewrite (fetch_weather_data_file_found _ _ _ _ _ _ _ _ sh Hv Hd).
    destruct (page_summary net city year (padded month)) as [r rs].
    destruct r as [[]|]; cbn [snd saved with_sheet with_events loaded disk];
      (split; [auto|]); rewrite ?lookup_insert_eq, ?Hd; discriminate.
  - rewrite (fetch_weather_data_file_no_sheet _ _ _ _ _ _ _ _ Hv Hd).
    cbn [snd loaded disk]. split; [auto|]. rewrite Hd. discriminate.
  - rewrite (fetch_weather_data_file_missing _ _ _ _ _ _ _ _ Hv Hd).
    destruct (page_summary net city year (padded month)) as [r rs].
    destruct r as [[]|]; cbn [snd saved with_sheet with_events created disk];
      (split; [auto|]); rewrite ?lookup_insert_eq; discriminate.
Qed.

Lemma fetch_months_by_name_disk file city year ms : forall w,
  let r := fetch_months_by_name now_year now_month net file city year ms w in
  (forall path, is_Some (disk w !! path) -> is_Some (disk r.2 !! path))
  /\ (disk r.2 !! data_path file = None -> r.2 = w).
Proof.
  induction ms as [|month ms IH]; intros w r; subst r; [cbn; auto|].
  unfold fetch_months_by_name, bind, ret in *. cbn [for_each]. unfold bind, ret.
  destruct (fetch_name_disk file city year month w) as [Hk Hn].
  destruct (fetch_weather_data now_year now_month net (FileName file) city year month w)
    as [[o|e] w1]; cbn [snd] in Hk, Hn.
  - destruct (IH w1) as [Hk1 Hn1]. split.
    + intros path Hp. apply Hk1, Hk, Hp.
    + intros Hd. specialize (Hn1 Hd). rewrite Hn1 in Hd |- *. apply Hn, Hd.
  - cbn [snd]. auto.
Qed.

Lemma acquire_history_found w :
  is_Some (disk w !! data_path Script.history) ->
  Script.acquire_history now_year now_month net w = (Ret tt, w).
Proof.
  intros H. unfold Script.acquire_history.
  rewrite (bind_ret_eq _ _ _ _ _ (path_exists_spec _ w)).
  rewrite bool_decide_eq_true_2 by exact H. reflexivity.
Qed.

Lemma acquire_history_keeps w w3 :
  Script.acquire_history now_year now_month net w = (Ret tt, w3) ->
  is_Some (disk w3 !! data_path Script.history)
  /\ (forall path, is_Some (disk w !! path) -> is_Some (disk w3 !! path)).
Proof.
  unfold Script.acquire_history. intros H.
  rewrite (bind_ret_eq _ _ _ _ _ (path_exists_spec _ w)) in H.
  destruct (disk w !! data_path Script.history) as [o0|] eqn:Hd.
  - rewrite bool_decide_eq_true_2 in H by eauto. injection H as <-.
    rewrite Hd. eauto.
  - rewrite bool_decide_eq_false_2 in H by (intros [? ?]; discriminate). cbn [negb] in H.
    apply bind_ret_inv in H as (b1 & w1 & H1 & H).
    apply bind_ret_inv in H as (b2 & w2 & H2 & H).
    apply bind_ret_inv in H as (b3 & w3' & H3 & H). injection H as <-.
    apply year_run_keeps in H1 as [_ K1], H2 as [_ K2], H3 as [E3 K3]. split; [exact E3|].
    intros path Hp. apply K3, K2, K1, Hp.
Qed.

End ScriptTwice.

(** X15: the script does not fetch twice. When its acquisition part has
    run to its end, running it again does nothing: the first dataset
    exists, and the second one either exists or was never made because
    every one of its months was turned down, and is turned down again. *)
Theorem X15_the_script_run_again_does_nothing
    (now_year now_month : Z) (net : str -> option Response) (w w1 : world) :
  Script.acquire now_year now_month net w = (Ret tt, w1) ->
  Script.acquire now_year now_month net w1 = (Ret tt, w1).
Proof.
  unfold Script.acquire. intros H.
  apply bind_ret_inv in H as ([] & w3 & Hh & Hn).
  destruct (acquire_history_keeps now_year now_month net _ _ Hh) as [Eh _].
  assert (Hloop : forall w0,
            disk w0 !! data_path Script.now = None ->
            Script.acquire_now now_year now_month net w0
            = fetch_months_by_name now_year now_month net Script.now (lit "dalian")
                (lit "2025") (str_of_nat <$> seq 1 6) w0).
  { intros w0 Hd. unfold Script.acquire_now.
    rewrite (bind_ret_eq _ _ _ _ _ (path_exists_spec _ w0)).
    rewrite bool_decide_eq_false_2 by (rewrite Hd; intros [? ?]; discriminate).
    reflexivity. }
  assert (Hskip : forall w0,
            is_Some (disk w0 !! data_path Script.now) ->
            Script.acquire_now now_year now_month net w0 = (Ret tt, w0)).
  { intros w0 Hd. unfold Script.acquire_now.
    rewrite (bind_ret_eq _ _ _ _ _ (path_exists_spec _ w0)).
    rewrite bool_decide_eq_true_2 by exact Hd. reflexivity. }
  assert (Hw1 : is_Some (disk w1 !! data_path Script.history)
                /\ (disk w1 !! data_path Script.now = None -> w1 = w3)).
  { destruct (disk w3 !! data_path Script.now) as [o|] eqn:Hd.
    - rewrite Hskip in Hn by (rewrite Hd; eauto). injection Hn as <-.
      split; [exact Eh|reflexivity].
    - rewrite (Hloop _ Hd) in Hn.
      destruct (fetch_months_by_name_disk now_year now_month net Script.now (lit "dalian")
                  (lit "2025") (str_of_nat <$> seq 1 6) w3) as [Hk Hnone].
      rewrite Hn in Hk, Hnone. cbn [snd] in Hk, Hnone. split; [apply Hk, Eh|exact Hnone]. }
  destruct Hw1 as [Eh1 Hsame].
  rewrite (bind_ret_eq _ _ _ _ _ (acquire_history_found now_year now_month net w1 Eh1)).
  destruct (disk w1 !! data_path Script.now) as [o|] eqn:Hd.
  - apply Hskip. rewrite Hd. eauto.
  - pose proof (Hsame eq_refl) as ->. exact Hn.
Qed.

Lemma X15_witness :
  let w1 := (Script.acquire 2025 6 (site_of example_page) empty_world).2 in
  Script.acquire 2025 6 (site_of example_page) w1 = (Ret tt, w1).
Proof.
  intros w1. apply (X15_the_script_run_again_does_nothing 2025 6 _ empty_world).
  subst w1.
  assert (H : (Script.acquire 2025 6 (site_of example_page) empty_world).1 = Ret tt)
    by (vm_compute; reflexivity).
  destruct (Script.acquire 2025 6 (site_of example_page) empty_world) as [r w1].
  cbn in H. subst r. reflexivity.
Defined.

(** * More of analyse.py *)

(** ** The force level of a wind text *)

Section WindForce.

Lemma contains_elem_of sep s : contains sep s = true <-> sep ∈ s.
Proof.
  unfold contains. rewrite existsb_exists. split.
  - intros (x & Hin & ->%N.eqb_eq). apply list_elem_of_In. exact Hin.
  - intros Hin. exists sep. split; [apply list_elem_of_In; exact Hin|apply N.eqb_refl].
Qed.

Lemma contains_cons sep c s :
  contains sep (c :: s) = (c =? sep) || contains sep s.
Proof. unfold contains. cbn [existsb]. rewrite (N.eqb_sym sep c). reflexivity. Qed.

Lemma split_without sep s : contains sep s = false -> split sep s = [s].
Proof.
  induction s as [|c s IH]; [reflexivity|]. rewrite contains_cons.
  intros [Hc Hs]%orb_false_elim. cbn [split]. rewrite Hc, (IH Hs). reflexivity.
Qed.

Lemma split_with sep s :
  contains sep s = true ->
  exists before level,
    s = before ++ sep :: level /\ contains sep level = false
    /\ last (split sep s) = Some level /\ (1 < length (split sep s))%nat.
Proof.
  induction s as [|c s IH]; [discriminate|]. rewrite contains_cons. intros H.
  cbn [split]. destruct (N.eqb_spec c sep) as [->|Hc].
  - destruct (contains sep s) eqn:Hs.
    + destruct (IH eq_refl) as (before & level & -> & Hl & Hlast & Hlen).
      exists (sep :: before), level. split; [reflexivity|]. split; [exact Hl|].
      destruct (split sep (before ++ sep :: level)) as [|p ps]; [cbn in Hlen; lia|].
      split; [exact Hlast|cbn [length] in *; lia].
    + exists [], s. rewrite (split_without _ _ Hs). auto.
  - cbn [orb] in H. destruct (IH H) as (before & level & -> & Hl & Hlast & Hlen).
    exists (c :: before), level. split; [reflexivity|]. split; [exact Hl|].
    destruct (split sep (before ++ sep :: level)) as [|p [|q ps]];
      [cbn in Hlen; lia|cbn in Hlen; lia|].
    split; [exact Hlast|cbn [length]; lia].
Qed.

End WindForce.

(** X16: the force level of a wind text is what follows its last space:
    the text splits into a part, a space and the level, and the level
    holds no space; a text without a space has no level. *)
Theorem X16_the_level_is_what_follows_the_last_space (text : str) :
  match extract_wind_force (CStr text) with
  | Ret (Some level) =>
      c_space ∈ text
      /\ exists before, text = before ++ c_space :: level /\ c_space ∉ level
  | Ret None => c_space ∉ text
  | Raise _ => False
  end.
Proof.
  unfold extract_wind_force. destruct (contains c_space text) eqn:Hc.
  - destruct (split_with _ _ Hc) as (before & level & Ht & Hl & -> & _).
    split; [apply contains_elem_of, Hc|]. exists before. split; [exact Ht|].
    rewrite <- contains_elem_of, Hl. discriminate.
  - rewrite <- contains_elem_of, Hc. discriminate.
Qed.

(** ** When the wind aggregate raises *)

Section WindRaises.

Lemma map_result_raise {A B} (f : A -> result B) (l : list A) e :
  map_result f l = Raise e -> exists x, x ∈ l /\ f x = Raise e.
Proof.
  induction l as [|x l IH]; [discriminate|]. cbn [map_result].
  destruct (f x) as [y|e'] eqn:Hx; cbn [rbind].
  - destruct (map_result f l) as [ys|e'']; [discriminate|]. cbn [rbind].
    intros [= ->]. destruct (IH eq_refl) as (x' & Hin & Hx').
    exists x'. split; [right; exact Hin|exact Hx'].
  - intros [= ->]. exists x. split; [left|exact Hx].
Qed.

Lemma map_result_raises {A B} (f : A -> result B) (l : list A) x e :
  x ∈ l -> f x = Raise e -> exists e', map_result f l = Raise e'.
Proof.
  intros Hin Hx. induction l as [|y l IH]; [inversion Hin|]. cbn [map_result].
  destruct (f y) as [v|e'] eqn:Hy; cbn [rbind]; [|eauto].
  apply elem_of_cons in Hin as [->|Hin]; [congruence|].
  destruct (IH Hin) as [e' ->]. cbn [rbind]. eauto.
Qed.

Lemma extract_wind_force_raise c e :
  extract_wind_force c = Raise e <-> is_text c = false /\ e = TypeError.
Proof.
  destruct c as [|s|z]; cbn [extract_wind_force is_text]; split.
  - intros [= <-]. auto.
  - intros [_ ->]. reflexivity.
  - discriminate.
  - intros [H _]. discriminate.
  - intros [= <-]. auto.
  - intros [_ ->]. reflexivity.
Qed.

Lemma all_wind_occurrences_raise df e :
  all_wind_occurrences df = Raise e ->
  e = TypeError
  /\ exists r, r ∈ df /\ (is_text (col_wind_day r) = false \/ is_text (col_wind_night r) = false).
Proof.
  unfold all_wind_occurrences.
  destruct (map_result extract_wind_force (col_wind_day <$> df)) as [day|e'] eqn:Hd;
    cbn [rbind].
  - destruct (map_result extract_wind_force (col_wind_night <$> df)) as [night|e''] eqn:Hn;
      cbn [rbind]; [discriminate|].
    intros [= ->]. apply map_result_raise in Hn as (c & (r & -> & Hr)%list_elem_of_fmap & Hc).
    apply extract_wind_force_raise in Hc as [Hc ->]. eauto.
  - intros [= ->]. apply map_result_raise in Hd as (c & (r & -> & Hr)%list_elem_of_fmap & Hc).
    apply extract_wind_force_raise in Hc as [Hc ->]. eauto.
Qed.

Lemma all_wind_occurrences_raises df r :
  r ∈ df -> is_text (col_wind_day r) = false \/ is_text (col_wind_night r) = false ->
  exists e, all_wind_occurrences df = Raise e.
Proof.
  intros Hr Hc. unfold all_wind_occurrences.
  destruct (map_result extract_wind_force (col_wind_day <$> df)) as [day|e'] eqn:Hd;
    cbn [rbind]; [|eauto].
  destruct Hc as [Hc|Hc].
  - destruct (map_result_raises extract_wind_force (col_wind_day <$> df)
                (col_wind_day r) TypeError) as [e He].
    + apply list_elem_of_fmap. eauto.
    + apply extract_wind_force_raise. auto.
    + congruence.
  - destruct (map_result_raises extract_wind_force (col_wind_night <$> df)
                (col_wind_night r) TypeError) as [e He].
    + apply list_elem_of_fmap. eauto.
    + apply extract_wind_force_raise. auto.
    + rewrite He. cbn [rbind]. eauto.
Qed.

End WindRaises.

(** X17: the wind aggregate raises exactly when some wind cell of the
    sheet, of the day or of the night, is no text (an empty cell or a
    number), and what it raises is a TypeError. *)
Theorem X17_a_wind_cell_that_is_no_text_raises (df : DataFrame) :
  ((exists e, wind_counts df = Raise e) <->
   exists r, r ∈ df
     /\ (is_text (col_wind_day r) = false \/ is_text (col_wind_night r) = false))
  /\ (forall e, wind_counts df = Raise e -> e = TypeError).
Proof.
  unfold wind_counts. split; [split|].
  - intros [e He]. destruct (all_wind_occurrences df) as [occ|e'] eqn:Ho; [discriminate|].
    apply all_wind_occurrences_raise in Ho as [_ Ho]. exact Ho.
  - intros (r & Hr & Hc). destruct (all_wind_occurrences_raises df r Hr Hc) as [e ->].
    cbn [rbind]. eauto.
  - intros e He. destruct (all_wind_occurrences df) as [occ|e'] eqn:Ho; [discriminate|].
    cbn [rbind] in He. injection He as ->.
    apply all_wind_occurrences_raise in Ho as [Ho _]. exact Ho.
Qed.

(** ** The counts, summed *)

Section Totals.

Lemma groupby_size_total {K} `{Countable K} (keys : list K) :
  map_fold (fun _ n acc => (n + acc)%nat) O (groupby_size keys) = length keys.
Proof.
  induction keys as [|k keys IH]; [apply map_fold_empty|].
  change (groupby_size (k :: keys))
    with (<[k := S (default O (groupby_size keys !! k))]> (groupby_size keys)).
  cbn [length]. rewrite <- IH.
  destruct (groupby_size keys !! k) as [n|] eqn:Hk; cbn [default].
  - rewrite <- insert_delete_eq.
    rewrite map_fold_insert_L; [|intros; lia|apply lookup_delete_eq].
    rewrite (map_fold_delete_L _ _ k n (groupby_size keys)); [unfold id; lia|intros; lia|exact Hk].
  - rewrite map_fold_insert_L; [unfold id; lia|intros; lia|exact Hk].
Qed.

Lemma annualized_total {K} `{Countable K} (keys : list K) (years : nat) :
  total_count ((fun n => (n, true_divide n years)) <$> groupby_size keys) = length keys.
Proof.
  unfold total_count. rewrite map_fold_fmap. apply groupby_size_total.
Qed.

Lemma keyed_length {L} (l : list (cell * L)) : (length (keyed l) <= length l)%nat.
Proof. apply length_filter. Qed.

Lemma omap_length {A B} (f : A -> option B) (l : list A) :
  (length (omap f l) <= length l)%nat.
Proof.
  induction l as [|x l IH]; [reflexivity|]. cbn [omap list_omap].
  destruct (f x); cbn [length]; lia.
Qed.

End Totals.

(** X18: every observation is counted once. The counts of the weather
    aggregate sum to the number of day and night cells that hold a
    condition in a row that holds a month, those of the wind aggregate to
    the number of wind texts with a level in such a row; neither sum
    exceeds twice the number of rows of the sheet. *)
Theorem X18_the_counts_sum_to_the_observations (df : DataFrame) :
  total_count (weather_counts df) = length (keyed (weather df))
  /\ (total_count (weather_counts df) <= 2 * length df)%nat
  /\ (forall counts,
        wind_counts df = Ret counts ->
        exists occ,
          all_wind_occurrences df = Ret occ
          /\ total_count counts = length (keyed occ)
          /\ (total_count counts <= 2 * length df)%nat).
Proof.
  assert (Hw : total_count (weather_counts df) = length (keyed (weather df)))
    by apply annualized_total.
  split; [exact Hw|]. split.
  - rewrite Hw. etransitivity; [apply keyed_length|]. unfold weather.
    etransitivity; [apply length_filter|].
    rewrite length_app, !length_fmap. lia.
  - intros counts. unfold wind_counts.
    destruct (all_wind_occurrences df) as [occ|e] eqn:Ho; [|discriminate].
    cbn [rbind]. intros [= <-]. exists occ. split; [reflexivity|].
    rewrite annualized_total. split; [reflexivity|].
    etransitivity; [apply keyed_length|].
    unfold all_wind_occurrences in Ho.
    destruct (map_result extract_wind_force (col_wind_day <$> df)) as [day|e] eqn:Hd;
      [|discriminate].
    destruct (map_result extract_wind_force (col_wind_night <$> df)) as [night|e] eqn:Hn;
      [|discriminate].
    cbn [rbind] in Ho. injection Ho as <-.
    etransitivity; [apply omap_length|].
    rewrite length_app, !length_zip, !length_fmap. lia.
Qed.

(** ** The sorted force levels *)

Section SortedLevels.











End SortedLevels.



(** ** The order of the weather conditions *)

Section Conditions.

Import WeatherOrder.

Lemma str_lt_irrefl a : str_lt a a = false.
Proof.
  induction a as [|x a IH]; [reflexivity|]. cbn [str_lt].
  rewrite N.ltb_irrefl, N.eqb_refl, IH. reflexivity.
Qed.

Lemma str_lt_cons x a y b :
  str_lt (x :: a) (y :: b) = true <-> x < y \/ (x = y /\ str_lt a b = true).
Proof.
  cbn [str_lt]. rewrite orb_true_iff, andb_true_iff, N.ltb_lt, N.eqb_eq. reflexivity.
Qed.

Lemma str_lt_trans a b c : str_lt a b = true -> str_lt b c = true -> str_lt a c = true.
Proof.
  revert b c. induction a as [|x a IH]; intros [|y b] [|z c]; try discriminate;
    try (intros; reflexivity).
  rewrite !str_lt_cons. intros [H1|[-> H1]] [H2|[-> H2]].
  - left. lia.
  - left. exact H1.
  - left. exact H2.
  - right. split; [reflexivity|]. exact (IH _ _ H1 H2).
Qed.

Lemma str_lt_trichotomy a b : str_lt a b = true \/ a = b \/ str_lt b a = true.
Proof.
  revert b. induction a as [|x a IH]; intros [|y b]; auto.
  rewrite !str_lt_cons. destruct (N.lt_trichotomy x y) as [H|[->|H]]; auto.
  destruct (IH b) as [H|[->|H]]; auto.
Qed.

Lemma str_lt_asym a b : str_lt a b = true -> str_lt b a = false.
Proof.
  intros H. destruct (str_lt b a) eqn:E; [|reflexivity].
  rewrite <- (str_lt_irrefl a). symmetry. exact (str_lt_trans _ _ _ H E).
Qed.

#[local] Instance str_le_trans : Transitive str_le.
Proof.
  unfold str_le. intros a b c Hab Hbc.
  destruct (str_lt c a) eqn:E; [|reflexivity].
  destruct (str_lt_trichotomy b a) as [H|[->|H]]; [congruence|congruence|].
  rewrite (str_lt_trans _ _ _ E H) in Hbc. discriminate.
Qed.

#[local] Instance str_le_antisym : AntiSymm (=) str_le.
Proof.
  unfold str_le. intros a b Hab Hba.
  destruct (str_lt_trichotomy a b) as [H|[->|H]]; [congruence|reflexivity|congruence].
Qed.

Lemma insert_text_perm x l : insert_text x l ≡ₚ x :: l.
Proof.
  induction l as [|y l IH]; [reflexivity|]. cbn [insert_text].
  destruct (str_lt y x); [|reflexivity]. rewrite IH. apply Permutation_swap.
Qed.

Lemma sorted_texts_perm l : sorted_texts l ≡ₚ l.
Proof.
  induction l as [|x l IH]; [reflexivity|].
  change (sorted_texts (x :: l)) with (insert_text x (sorted_texts l)).
  rewrite insert_text_perm, IH. reflexivity.
Qed.

Lemma insert_text_Sorted x l : Sorted str_le l -> Sorted str_le (insert_text x l).
Proof.
  induction 1 as [|y l Hs IH Hhd]; [repeat constructor|].
  cbn [insert_text]. destruct (str_lt y x) eqn:Hyx.
  - constructor; [exact IH|].
    destruct l as [|z l]; cbn [insert_text].
    + constructor. apply str_lt_asym, Hyx.
    + inversion Hhd; subst. destruct (str_lt z x); constructor;
        [assumption|apply str_lt_asym, Hyx].
  - constructor; [constructor; assumption|]. constructor. exact Hyx.
Qed.

Lemma sorted_texts_Sorted l : Sorted str_le (sorted_texts l).
Proof.
  induction l as [|x l IH]; [constructor|]. apply insert_text_Sorted, IH.
Qed.

Lemma sorted_texts_of_perm l l' : l ≡ₚ l' -> sorted_texts l = sorted_texts l'.
Proof.
  intros Hp. apply (Sorted_unique str_le); [apply sorted_texts_Sorted..|].
  rewrite !sorted_texts_perm. exact Hp.
Qed.

Lemma weather_order_NoDup : NoDup weather_order.
Proof. apply (bool_decide_unpack (NoDup weather_order)). vm_compute. exact I. Qed.

Lemma filter_of_iff {A} (P Q : A -> Prop) `{forall x, Decision (P x)}
    `{forall x, Decision (Q x)} (l : list A) :
  (forall x, P x <-> Q x) -> filter P l = filter Q l.
Proof.
  intros HPQ. induction l as [|x l IH]; [reflexivity|].
  rewrite !filter_cons, IH. repeat case_decide; try reflexivity; exfalso; firstorder.
Qed.

End Conditions.

(** X20: the legend lists first the conditions of the fixed list that
    occur, in the order of that list, then the other conditions that
    occur, in ascending order of their texts. Every condition found is in
    the legend and nothing else is. *)
Theorem X20_known_conditions_first_then_the_others_sorted (existing_weathers : list str) :
  exists known others,
    WeatherOrder.sorted_weather existing_weathers = known ++ others
    /\ sublist known WeatherOrder.weather_order
    /\ (forall w, w ∈ known <-> w ∈ WeatherOrder.weather_order /\ w ∈ existing_weathers)
    /\ Sorted str_le others
    /\ others ≡ₚ filter (fun w => w ∉ WeatherOrder.weather_order) existing_weathers
    /\ forall w, w ∈ WeatherOrder.sorted_weather existing_weathers <-> w ∈ existing_weathers.
Proof.
  eexists _, _. split; [reflexivity|].
  split; [apply sublist_filter|].
  split; [intros w; rewrite list_elem_of_filter; tauto|].
  split; [apply sorted_texts_Sorted|].
  split; [apply sorted_texts_perm|].
  intros w. unfold WeatherOrder.sorted_weather. cbn zeta.
  rewrite elem_of_app, sorted_texts_perm, !list_elem_of_filter.
  destruct (decide (w ∈ WeatherOrder.weather_order)); tauto.
Qed.

(** X21: the legend does not depend on the order the conditions are found
    in, and when no condition is found twice, as in the values of
    [unique()], it is a rearrangement of them. *)
Theorem X21_the_legend_is_a_rearrangement (found found' : list str) :
  found ≡ₚ found' ->
  WeatherOrder.sorted_weather found = WeatherOrder.sorted_weather found'
  /\ (NoDup found -> WeatherOrder.sorted_weather found ≡ₚ found).
Proof.
  intros Hp. unfold WeatherOrder.sorted_weather. cbn zeta. split.
  - f_equal.
    + apply filter_of_iff. intros w. rewrite Hp. reflexivity.
    + apply sorted_texts_of_perm. rewrite Hp. reflexivity.
  - intros Hnd. rewrite sorted_texts_perm.
    etransitivity;
      [|apply (filter_app_complement (fun w => w ∈ WeatherOrder.weather_order) found)].
    apply Permutation_app; [|reflexivity].
    apply NoDup_Permutation.
    + apply NoDup_filter, weather_order_NoDup.
    + apply NoDup_filter, Hnd.
    + intros w. rewrite !list_elem_of_filter. tauto.
Qed.

Lemma X21_witness :
  WeatherOrder.sorted_weather [lit "霾"; lit "阴"; lit "台风"; lit "晴"]
  = WeatherOrder.sorted_weather [lit "晴"; lit "阴"; lit "台风"; lit "霾"]
  /\ (NoDup [lit "霾"; lit "阴"; lit "台风"; lit "晴"] ->
      WeatherOrder.sorted_weather [lit "霾"; lit "阴"; lit "台风"; lit "晴"]
      ≡ₚ [lit "霾"; lit "阴"; lit "台风"; lit "晴"]).
Proof.
  apply (X21_the_legend_is_a_rearrangement
           [lit "霾"; lit "阴"; lit "台风"; lit "晴"]
           [lit "晴"; lit "阴"; lit "台风"; lit "霾"]).
  apply (Permutation_trans (l' := [lit "阴"; lit "台风"; lit "晴"; lit "霾"])).
  - apply (Permutation_cons_append [lit "阴"; lit "台风"; lit "晴"] (lit "霾")).
  - apply (Permutation_trans (l' := [lit "阴"; lit "晴"; lit "台风"; lit "霾"])).
    + apply perm_skip, perm_swap.
    + apply perm_swap.
Defined.

(** The conditions 霾, 阴, 台风, 晴 give the legend 晴, 阴, 台风, 霾. *)
Example example_legend :
  WeatherOrder.sorted_weather [lit "霾"; lit "阴"; lit "台风"; lit "晴"]
  = [lit "晴"; lit "阴"; lit "台风"; lit "霾"].
Proof. vm_compute. reflexivity. Qed.

(** * train.py *)

(** ** The months of a prediction *)

Section Months.

Import Train.

Lemma insert_int_hd x l : Sorted Z.le (x :: l) -> insert_int x l = x :: l.
Proof.
  intros Hs. apply Sorted_inv in Hs as [_ Hhd].
  destruct Hhd as [|y l Hxy]; [reflexivity|]. cbn [insert_int].
  destruct (Z.ltb_spec y x); [lia|reflexivity].
Qed.

Lemma sorted_ints_fixed l : Sorted Z.le l -> sorted_ints l = l.
Proof.
  induction l as [|x l IH]; [reflexivity|]. intros Hs.
  change (sorted_ints (x :: l)) with (insert_int x (sorted_ints l)).
  rewrite IH by (apply Sorted_inv in Hs; tauto). apply insert_int_hd, Hs.
Qed.

Lemma insert_int_ascending x l : Sorted Z.le l -> Sorted Z.le (insert_int x l).
Proof.
  induction 1 as [|y l Hs IH Hhd]; [repeat constructor|].
  cbn [insert_int]. destruct (Z.ltb_spec y x) as [Hlt|Hge].
  - constructor; [exact IH|].
    destruct l as [|z l]; cbn [insert_int].
    + constructor. lia.
    + inversion Hhd; subst. destruct (z <? x)%Z; constructor; lia.
  - constructor; [constructor; assumption|]. constructor. lia.
Qed.

Lemma sorted_ints_ascending l : Sorted Z.le (sorted_ints l).
Proof.
  induction l as [|x l IH]; [constructor|]. apply insert_int_ascending, IH.
Qed.

Lemma sorted_ints_iff l : sorted_ints l = l <-> Sorted Z.le l.
Proof.
  split; [intros <-; apply sorted_ints_ascending|apply sorted_ints_fixed].
Qed.

Lemma ascending_bounds l first final :
  Sorted Z.le l -> l !! 0%nat = Some first -> last l = Some final ->
  Forall (fun m => first <= m <= final)%Z l.
Proof.
  intros Hs%Sorted_StronglySorted; [|intros ? ? ?; lia].
  revert first. induction Hs as [|x l Hs IH Hx]; intros first; [discriminate|].
  intros [= <-] Hlast. destruct l as [|y l].
  - injection Hlast as <-. repeat constructor; lia.
  - change (last (x :: y :: l)) with (last (y :: l)) in Hlast.
    specialize (IH y eq_refl Hlast).
    pose proof (Forall_inv Hx) as Hxy.
    constructor.
    + split; [lia|]. apply Forall_inv in IH. lia.
    + eapply Forall_impl; [exact IH|]. cbn beta. intros m Hm. lia.
Qed.

End Months.

(** X22: [predict] goes on to predict exactly for a list of months that
    is not empty, ascends (a month may repeat) and holds only months
    from 1 to 12; the test raises nothing. The list need not be made of
    consecutive months. *)
Theorem X22_the_months_a_prediction_accepts (month : list Z) :
  (Train.invalid_month month = Ret false <->
   month <> [] /\ Sorted Z.le month /\ Forall (fun m => 1 <= m <= 12)%Z month)
  /\ exists b, Train.invalid_month month = Ret b.
Proof.
  unfold Train.invalid_month.
  destruct month as [|first rest]; [cbn; split; [split; [discriminate|tauto]|eauto]|].
  rewrite bool_decide_eq_false_2 by discriminate.
  destruct (decide (Train.sorted_ints (first :: rest) = first :: rest)) as [Hs|Hs].
  - rewrite bool_decide_eq_false_2 by (intros H; apply H, Hs).
    cbn [lookup list_lookup of_option rbind].
    destruct (last (first :: rest)) as [final|] eqn:Hl;
      [|apply last_None in Hl; discriminate].
    cbn [of_option rbind]. apply sorted_ints_iff in Hs.
    pose proof (ascending_bounds _ _ _ Hs eq_refl Hl) as Hb.
    assert (Hf : (first <= final)%Z) by (apply Forall_inv in Hb; lia).
    assert (Hin : final ∈ first :: rest) by (apply last_Some_elem_of, Hl).
    split; [|destruct (first <? 1)%Z; eauto].
    destruct (Z.ltb_spec first 1) as [H1|H1].
    + split; [discriminate|]. intros (_ & _ & Ha). apply Forall_inv in Ha. lia.
    + destruct (Z.ltb_spec 12 final) as [H2|H2].
      * split; [discriminate|]. intros (_ & _ & Ha).
        rewrite Forall_forall in Ha. specialize (Ha _ Hin). lia.
      * split; [intros _|reflexivity]. split; [discriminate|]. split; [exact Hs|].
        eapply Forall_impl; [exact Hb|]. cbn beta. intros m Hm. lia.
  - rewrite bool_decide_eq_true_2 by exact Hs. split; [|eauto].
    split; [discriminate|]. intros (_ & Ha & _). apply sorted_ints_iff in Ha. contradiction.
Qed.

(** The script predicts for the months 1 to 12, which are accepted; so
    are the months 1, 3, 12, which are not consecutive. *)
Example example_months :
  Train.invalid_month (Z.of_nat <$> seq 1 12) = Ret false
  /\ Train.invalid_month [1; 3; 12]%Z = Ret false
  /\ Train.invalid_month [2; 1]%Z = Ret true
  /\ Train.invalid_month [0; 1]%Z = Ret true
  /\ Train.invalid_month [12; 13]%Z = Ret true
  /\ Train.invalid_month [] = Ret true.
Proof. vm_compute. repeat split; reflexivity. Qed.
